(** * win32-dlfcn: POSIX dlopen/dlsym/dlclose/dlerror on top of kernel32

    A shallow embedding of [src/win32-dlfcn.cc].  The shim is a flat
    translation layer: every function is a short sequence of calls into the
    C runtime and into kernel32, and one static [DWORD lastError].  The
    embedding keeps that shape:

    - C strings are [string]s (the bytes in front of the terminating NUL);
      integers are [Z] with the width of the C type written out where the
      source converts;
    - the C runtime state that the source touches ([errno]) and the process
      state (the static [lastError], the thread's Win32 last-error code, the
      process error mode, the rest of the loader) are threaded through a
      state monad;
    - kernel32 and the allocator are an interface ([Platform]) whose replies
      are arbitrary; every call is appended to a trace, so that "which lookup
      was requested" and "was the unload primitive invoked" are statements
      about the trace. *)

From Stdlib Require Import ZArith String Ascii List Bool Lia.
Import ListNotations.

Local Open Scope Z_scope.

(** ** A small state monad *)

Definition St (S A : Type) : Type := S -> A * S.

Definition ret {S A} (a : A) : St S A := fun s => (a, s).

Definition bind {S A B} (m : St S A) (k : A -> St S B) : St S B :=
  fun s => let (a, s') := m s in k a s'.

Definition gets {S A} (f : S -> A) : St S A := fun s => (f s, s).

Definition modify {S} (f : S -> S) : St S unit := fun s => (tt, f s).

Declare Scope st_scope.
Delimit Scope st_scope with st.
Notation "x <- m ;; k" := (bind m (fun x => k))
  (at level 61, m at next level, right associativity) : st_scope.
Notation "m ;; k" := (bind m (fun _ => k))
  (at level 61, right associativity) : st_scope.
Local Open Scope st_scope.

(** ** C characters and strings *)

(** The value of a [char] read as [unsigned char]. *)
Definition code (c : ascii) : Z := Z.of_N (N_of_ascii c).

(** [isspace] in the "C" locale: space, and HT LF VT FF CR. *)
Definition isspace (c : ascii) : bool :=
  (code c =? 32) || ((9 <=? code c) && (code c <=? 13)).

Definition isdigit (c : ascii) : bool :=
  (48 <=? code c) && (code c <=? 57).

Definition NUL : ascii := Ascii.zero.

(** [str + n] *)
Fixpoint advance (n : nat) (s : string) : string :=
  match n, s with
  | S n', String _ r => advance n' r
  | _, _ => s
  end.

(** [*(str + n)]: the byte at offset [n]; the terminator sits at the end. *)
Definition deref (str : string) (n : nat) : ascii :=
  match advance n str with
  | String c _ => c
  | EmptyString => NUL
  end.

(** What a C function that reads a string up to its terminator sees of a
    buffer: the bytes in front of the first NUL. *)
Fixpoint c_str (buf : string) : string :=
  match buf with
  | String c r => if Ascii.eqb c NUL then EmptyString else String c (c_str r)
  | EmptyString => EmptyString
  end.

(** ** The C runtime: errno, strtoimax, sprintf("%lu") *)

Module CRT.

(** <errno.h> *)
Definition ERANGE : Z := 34.

(** <stdint.h>: [intmax_t] is [long long], 64 bits. *)
Definition INTMAX_MAX : Z := 2 ^ 63 - 1.
Definition INTMAX_MIN : Z := - 2 ^ 63.
Definition UINT16_MAX : Z := 65535.

(** The state of the runtime that the shim reads and writes: [errno]. *)
Definition crt : Type -> Type := St Z.

Definition get_errno : crt Z := gets (fun e => e).
Definition set_errno (v : Z) : crt unit := modify (fun _ => v).

(** Length of the run of white space in front of [s]. *)
Fixpoint span_space (s : string) : nat :=
  match s with
  | String c r => if isspace c then S (span_space r) else O
  | EmptyString => O
  end.

(** The sign in front of the digits: is it a minus, and how many bytes. *)
Definition scan_sign (s : string) : bool * nat :=
  match s with
  | String c _ =>
      if Ascii.eqb c "-" then (true, 1%nat)
      else if Ascii.eqb c "+" then (false, 1%nat)
      else (false, O)
  | EmptyString => (false, O)
  end.

(** The run of decimal digits in front of [s]: the number it denotes,
    continuing from [acc], and its length, continuing from [n]. *)
Fixpoint scan_digits (s : string) (acc : Z) (n : nat) : Z * nat :=
  match s with
  | String c r =>
      if isdigit c then scan_digits r (10 * acc + (code c - 48)) (S n)
      else (acc, n)
  | EmptyString => (acc, n)
  end.

(** [strtoimax(nptr, &end, 10)] (C99 7.8.2.3, 7.20.1.4): skip white space,
    take an optional sign, take the longest run of digits.  Without a
    digit no conversion is performed: the value is 0 and [end = nptr].
    A value outside [intmax_t] is clamped and [errno] becomes [ERANGE];
    otherwise [errno] is left alone.  The result is the value and the
    offset of [end] from [nptr]. *)
Definition strtoimax (nptr : string) : crt (Z * nat) :=
  let nws := span_space nptr in
  let s1 := advance nws nptr in
  let (neg, nsign) := scan_sign s1 in
  let (mag, ndig) := scan_digits (advance nsign s1) 0 O in
  match ndig with
  | O => ret (0, O)
  | S _ =>
      let v := if neg then - mag else mag in
      let endp := (nws + nsign + ndig)%nat in
      if INTMAX_MAX <? v then set_errno ERANGE ;; ret (INTMAX_MAX, endp)
      else if v <? INTMAX_MIN then set_errno ERANGE ;; ret (INTMAX_MIN, endp)
      else ret (v, endp)
  end.

(** The decimal digit for [d] in 0..9. *)
Definition digit_char (d : Z) : ascii := ascii_of_N (Z.to_N (48 + d)).

(** The digits of [n] in front of [acc], least significant digit first
    into the accumulator; [fuel] bounds the number of further digits. *)
Fixpoint utoa_fuel (fuel : nat) (n : Z) (acc : string) : string :=
  let acc' := String (digit_char (n mod 10)) acc in
  match fuel with
  | O => acc'
  | S f => if n / 10 =? 0 then acc' else utoa_fuel f (n / 10) acc'
  end.

(** What the conversion [%lu] prints for an unsigned value. *)
Definition utoa (n : Z) : string :=
  utoa_fuel (Z.to_nat (Z.log2 n)) n EmptyString.

End CRT.

(** The number a string of decimal digits denotes, continuing from [acc]. *)
Fixpoint dec_val (acc : Z) (s : string) : Z :=
  match s with
  | String c r => dec_val (10 * acc + (code c - 48)) r
  | EmptyString => acc
  end.

Fixpoint all_digits (s : string) : bool :=
  match s with
  | String c r => isdigit c && all_digits r
  | EmptyString => true
  end.

(** ** str_to_uint16 *)

(** [bool str_to_uint16(const char* str, uint16_t* res)]: [Some v] is
    [true] with [*res = v], [None] is [false] ([*res] not written). *)
Definition str_to_uint16 (str : string) : CRT.crt (option Z) :=
  CRT.set_errno 0 ;;
  r <- CRT.strtoimax str ;;
  let (val, endp) := r : Z * nat in
  errno <- CRT.get_errno ;;
  if (errno =? CRT.ERANGE) || (val <? 0) || (CRT.UINT16_MAX <? val)
     || (endp =? 0)%nat || negb (Ascii.eqb (deref str endp) NUL)
  then ret None
  else ret (Some (val mod 2 ^ 16)).


(** ** kernel32 and the allocator *)

(** Windows SDK constants used by the shim. *)
Definition CP_UTF8 : Z := 65001.
Definition SEM_FAILCRITICALERRORS : Z := 1.
Definition ERROR_OUTOFMEMORY : Z := 14.
Definition sizeof_WCHAR : Z := 2.

(** Pointers and handles are addresses; [NULL] is 0. *)
Definition NULL : Z := 0.

(** [DWORD] and [UINT] are 32 bits wide; [size_t] is 64 bits (x64). *)
Definition DWORD_MAX : Z := 2 ^ 32 - 1.
Definition to_DWORD (v : Z) : Z := v mod 2 ^ 32.
Definition to_size_t (v : Z) : Z := v mod 2 ^ 64.
Definition is_DWORD (v : Z) : Prop := 0 <= v <= DWORD_MAX.

(** The second argument of [GetProcAddress]: an [LPCSTR] whose high-order
    word is zero is an ordinal, any other is the address of a name. *)
Inductive ProcRef : Type :=
| ByOrdinal (ordinal : Z)
| ByName (name : string).

(** What the shim does that is visible from outside: its calls into
    kernel32 and the allocator, with their arguments, and its assignments
    to the static [lastError]. *)
Inductive Event : Type :=
| EvGetModuleHandle                                (* GetModuleHandle(NULL) *)
| EvMultiByteToWideChar (input : string) (buf cch : Z)
| EvMalloc (size : Z)
| EvFree (p : Z)
| EvSetLastError (err : Z)
| EvGetLastError (err : Z)                         (* GetLastError() = err *)
| EvGetErrorMode
| EvSetErrorMode (mode : Z)
| EvLoadLibraryW (mode_in_force : Z) (filename : list Z)
| EvFreeLibrary (h : Z)
| EvGetProcAddress (h : Z) (sym : ProcRef)
| EvStoreLastError (err : Z).                      (* lastError = err *)

(** Projections of a trace: the export lookups requested, the values
    assigned to [lastError], the codes [GetLastError] returned, the handles
    passed to [FreeLibrary], the error modes set. *)
Definition lookups (t : list Event) : list (Z * ProcRef) :=
  flat_map (fun e => match e with
                     | EvGetProcAddress h sym => [(h, sym)]
                     | _ => []
                     end) t.

Definition stores (t : list Event) : list Z :=
  flat_map (fun e => match e with EvStoreLastError v => [v] | _ => [] end) t.

Definition platform_errors (t : list Event) : list Z :=
  flat_map (fun e => match e with EvGetLastError v => [v] | _ => [] end) t.

Definition unloads (t : list Event) : list Z :=
  flat_map (fun e => match e with EvFreeLibrary h => [h] | _ => [] end) t.

Definition mode_changes (t : list Event) : list Z :=
  flat_map (fun e => match e with EvSetErrorMode m => [m] | _ => [] end) t.

Section Shim.

(** The part of the operating system the shim cannot see into: loaded
    modules, the heap, the file system. *)
Variable K : Type.

(** The reply to a call: the return value, the last-error code if the
    call set one, and the system afterwards. *)
Record Reply (R : Type) : Type := mkReply {
  result : R;
  set_error : option Z;
  after : K
}.
Arguments result {R} _.
Arguments set_error {R} _.
Arguments after {R} _.

(** The calls whose outcome the shim does not control.
    [MultiByteToWideChar] replies with its [int] result and the wide
    characters it stored in the output buffer; [LoadLibraryW] is told the
    error mode in force.  A reply may change the loader's state and the
    thread's last-error code; the process error mode changes through
    [SetErrorMode] only, and the shim is not re-entered while a call is
    in progress. *)
Record Platform : Type := mkPlatform {
  main_image : Z;                   (* GetModuleHandle(NULL) *)
  os_MultiByteToWideChar :
    K -> Z -> Z -> string -> Z -> Z -> Z -> Reply (Z * list Z);
  os_malloc : K -> Z -> Reply Z;
  os_free : K -> Z -> Reply unit;
  os_LoadLibraryW : K -> Z -> list Z -> Reply Z;
  os_FreeLibrary : K -> Z -> Reply Z;
  os_GetProcAddress : K -> Z -> ProcRef -> Reply Z
}.

Variable os : Platform.

(** The state of the process. *)
Record World : Type := mkWorld {
  lastError : Z;          (* static DWORD lastError *)
  errno : Z;              (* the C runtime's errno *)
  win32_error : Z;        (* the calling thread's last-error code *)
  error_mode : Z;         (* the process error mode *)
  kernel : K;
  trace : list Event
}.

Definition M : Type -> Type := St World.

Definition emit (e : Event) : M unit :=
  modify (fun w => mkWorld (lastError w) (errno w) (win32_error w)
                           (error_mode w) (kernel w) (trace w ++ [e])).

(** A call into the platform: log it, take the reply, record the
    last-error code the call set, if any. *)
Definition syscall {R} (e : Event) (f : K -> Reply R) : M R :=
  fun w =>
    let r := f (kernel w) in
    (result r,
     mkWorld (lastError w) (errno w)
             (match set_error r with
              | Some err => to_DWORD err
              | None => win32_error w
              end)
             (error_mode w) (after r) (trace w ++ [e])).

(** Run a C runtime computation on the process's [errno]. *)
Definition crt_call {A} (m : CRT.crt A) : M A :=
  fun w =>
    let (a, e) := m (errno w) in
    (a, mkWorld (lastError w) e (win32_error w) (error_mode w)
                (kernel w) (trace w)).

Definition GetModuleHandle_NULL : M Z :=
  emit EvGetModuleHandle ;; ret (main_image os).

Definition MultiByteToWideChar (cp flags : Z) (input : string)
    (cb buf cch : Z) : M (Z * list Z) :=
  syscall (EvMultiByteToWideChar input buf cch)
          (fun k => os_MultiByteToWideChar os k cp flags input cb buf cch).

Definition malloc (size : Z) : M Z :=
  syscall (EvMalloc size) (fun k => os_malloc os k size).

Definition free (p : Z) : M unit :=
  syscall (EvFree p) (fun k => os_free os k p).

Definition SetLastError (err : Z) : M unit :=
  emit (EvSetLastError err) ;;
  modify (fun w => mkWorld (lastError w) (errno w) (to_DWORD err)
                           (error_mode w) (kernel w) (trace w)).

Definition GetLastError : M Z :=
  err <- gets win32_error ;;
  emit (EvGetLastError err) ;;
  ret err.

Definition GetErrorMode : M Z :=
  emit EvGetErrorMode ;; gets error_mode.

(** Sets the process error mode and returns the previous one. *)
Definition SetErrorMode (mode : Z) : M Z :=
  emit (EvSetErrorMode mode) ;;
  old <- gets error_mode ;;
  modify (fun w => mkWorld (lastError w) (errno w) (win32_error w)
                           mode (kernel w) (trace w)) ;;
  ret old.

Definition LoadLibraryW (filename : list Z) : M Z :=
  mode <- gets error_mode ;;
  syscall (EvLoadLibraryW mode filename)
          (fun k => os_LoadLibraryW os k mode filename).

Definition FreeLibrary (h : Z) : M Z :=
  syscall (EvFreeLibrary h) (fun k => os_FreeLibrary os k h).

Definition GetProcAddress (h : Z) (sym : ProcRef) : M Z :=
  syscall (EvGetProcAddress h sym) (fun k => os_GetProcAddress os k h sym).

(** [lastError = err;] *)
Definition store_lastError (err : Z) : M unit :=
  emit (EvStoreLastError err) ;;
  modify (fun w => mkWorld err (errno w) (win32_error w)
                           (error_mode w) (kernel w) (trace w)).

(** ** The shim *)

(** [UTF8toWCHAR]: [None] is [NULL]; [Some (p, ws)] is the malloc'ed
    buffer [p] holding the wide characters [ws]. *)
Definition UTF8toWCHAR (inputString : string) : M (option (Z * list Z)) :=
  r <- MultiByteToWideChar CP_UTF8 0 inputString (-1) NULL 0 ;;
  let outputSize := fst r in
  if outputSize =? 0 then ret None
  else
    outputString <- malloc (to_size_t (outputSize * sizeof_WCHAR)) ;;
    if outputString =? NULL then
      SetLastError ERROR_OUTOFMEMORY ;; ret None
    else
      r2 <- MultiByteToWideChar CP_UTF8 0 inputString (-1)
                                outputString outputSize ;;
      if negb (fst r2 =? outputSize) then
        free outputString ;; ret None
      else ret (Some (outputString, snd r2)).

Definition dlopen (file : option string) (mode : Z) : M Z :=
  match file with
  | None => GetModuleHandle_NULL
  | Some f =>
      unicodeFilename <- UTF8toWCHAR f ;;
      match unicodeFilename with
      | None =>
          err <- GetLastError ;;
          store_lastError err ;;
          ret NULL
      | Some (p, wname) =>
          errorMode <- GetErrorMode ;;
          SetErrorMode (Z.lor errorMode SEM_FAILCRITICALERRORS) ;;
          handle <- LoadLibraryW wname ;;
          (if handle =? NULL
           then err <- GetLastError ;; store_lastError err
           else ret tt) ;;
          SetErrorMode errorMode ;;
          free p ;;
          ret handle
      end
  end.

Definition dlclose (handle : Z) : M Z :=
  main <- GetModuleHandle_NULL ;;
  rc <- (if negb (handle =? main)
         then r <- FreeLibrary handle ;; ret (if r =? 0 then 1 else 0)
         else ret 0) ;;
  (if negb (rc =? 0)
   then err <- GetLastError ;; store_lastError err
   else ret tt) ;;
  ret rc.

Definition dlsym (handle : Z) (name : string) : M Z :=
  ordinal <- crt_call (str_to_uint16 name) ;;
  address <- match ordinal with
             | Some o => GetProcAddress handle (ByOrdinal o)
             | None => GetProcAddress handle (ByName name)
             end ;;
  (if address =? NULL
   then err <- GetLastError ;; store_lastError err
   else ret tt) ;;
  ret address.

(** [sizeof errorMessage] *)
Definition errorMessage_size : Z := 64.

(** [sprintf(errorMessage, "Win32 error %lu", v)]: the string stored. *)
Definition sprintf_Win32_error (v : Z) : string :=
  ("Win32 error " ++ CRT.utoa v)%string.

(** [dlerror]: [None] is [NULL], [Some msg] is [errorMessage] holding
    [msg]. *)
Definition dlerror : M (option string) :=
  err <- gets lastError ;;
  if negb (err =? 0) then
    store_lastError 0 ;;
    ret (Some (sprintf_Win32_error err))
  else ret None.

(** The events appended to the trace between two states. *)
Definition since (w w' : World) : list Event :=
  skipn (length (trace w)) (trace w').

End Shim.

Arguments mkReply {K R} _ _ _.
Arguments result {K R} _.
Arguments set_error {K R} _.
Arguments after {K R} _.
Arguments mkWorld {K} _ _ _ _ _ _.
Arguments lastError {K} _.
Arguments errno {K} _.
Arguments win32_error {K} _.
Arguments error_mode {K} _.
Arguments kernel {K} _.
Arguments trace {K} _.
Arguments since {K} _ _.
Arguments main_image {K} _.
Arguments os_MultiByteToWideChar {K} _ _ _ _ _ _ _ _.
Arguments os_malloc {K} _ _ _.
Arguments os_free {K} _ _ _.
Arguments os_LoadLibraryW {K} _ _ _ _.
Arguments os_FreeLibrary {K} _ _ _.
Arguments os_GetProcAddress {K} _ _ _ _.
Arguments UTF8toWCHAR {K} os inputString _.
Arguments dlopen {K} os file mode _.
Arguments dlclose {K} os handle _.
Arguments dlsym {K} os handle name _.
Arguments dlerror {K} _.

(** ** A small platform to run the shim on

    One library, [a.dll], loaded at [lib]; it exports [f] with ordinal 12.
    Paths are converted byte for byte; a byte above 127 does not convert. *)

Module Demo.

Definition lib : Z := 268435456.
Definition f_address : Z := 268439552.

Definition wide (s : string) : list Z :=
  map code (list_ascii_of_string s) ++ [0].

Definition ascii_only (s : string) : bool :=
  forallb (fun c => code c <? 128) (list_ascii_of_string s).

Definition platform : Platform unit :=
  mkPlatform unit
    4194304
    (fun k cp flags input cb buf cch =>
       if ascii_only input
       then mkReply (Z.of_nat (List.length (wide input)),
                     if cch =? 0 then [] else wide input) None k
       else mkReply (0, []) (Some 1113) k)
    (fun k size => mkReply 65536 None k)
    (fun k p => mkReply tt None k)
    (fun k mode filename =>
       if list_eq_dec Z.eq_dec filename (wide "a.dll")
       then mkReply lib None k
       else mkReply 0 (Some 126) k)
    (fun k h => if h =? lib then mkReply 1 None k else mkReply 0 (Some 6) k)
    (fun k h sym =>
       if h =? lib then
         match sym with
         | ByOrdinal 12 => mkReply f_address None k
         | ByOrdinal _ => mkReply 0 (Some 182) k
         | ByName n => if String.eqb n "f" then mkReply f_address None k
                       else mkReply 0 (Some 127) k
         end
       else mkReply 0 (Some 6) k).

(** A fresh process, and one with a pending error. *)
Definition w0 : World unit := mkWorld 0 0 0 0 tt [].
Definition w_err : World unit := mkWorld 4294967295 0 0 2 tt [].

End Demo.

(** ** The policy for the Last-Error Slot (specification side)

    Between [w] and [w'] an operation that failed has read the platform's
    error code once and assigned it to the slot once; one that succeeded
    has not assigned to the slot. *)
Definition slot_policy {K} (failed : bool) (w w' : World K) : Prop :=
  if failed
  then exists err, platform_errors (since w w') = [err] /\
                   stores (since w w') = [err] /\ lastError w' = err
  else stores (since w w') = [] /\ lastError w' = lastError w.

(** The slot and the thread's error code hold 32-bit values. *)
Definition DWORD_state {K} (w : World K) : Prop :=
  is_DWORD (lastError w) /\ is_DWORD (win32_error w).

(** ** Two readings of "the string is a number" (specification side) *)

(** A string composed purely of ASCII digits, with no surrounding
    characters, whose decimal value lies in [0, 65535]: the value. *)
Definition strict_decimal_u16 (s : string) : option Z :=
  match s with
  | EmptyString => None
  | String _ _ =>
      if all_digits s && (dec_val 0 s <=? 65535) then Some (dec_val 0 s)
      else None
  end.

Fixpoint strip_space (s : string) : string :=
  match s with
  | String c r => if isspace c then strip_space r else s
  | EmptyString => s
  end.

(** The wider reading: white space may come first, then one optional sign,
    then digits only, up to the end of the C string; the signed value lies
    in [0, 65535] (so after a minus sign the digits are all zeros). *)
Definition lenient_decimal_u16 (name : string) : option Z :=
  let body := strip_space (c_str name) in
  let (neg, ds) :=
    match body with
    | String c r =>
        if Ascii.eqb c "-" then (true, r)
        else if Ascii.eqb c "+" then (false, r)
        else (false, body)
    | EmptyString => (false, body)
    end in
  match ds with
  | EmptyString => None
  | String _ _ =>
      if all_digits ds then
        if neg then (if dec_val 0 ds =? 0 then Some 0 else None)
        else if dec_val 0 ds <=? 65535 then Some (dec_val 0 ds)
        else None
      else None
  end.

(** ** The verdict of [str_to_uint16] in two steps

    What the code decides once white space and sign are behind it ([ds] is
    what follows them, at offset [off] of [s]), and what the wider reading
    says of the same digits. *)
Definition verdict (s : string) (neg : bool) (off : nat) (ds : string)
  : option Z * Z :=
  let (mag, ndig) := CRT.scan_digits ds 0 O in
  match ndig with
  | O => (None, 0)
  | S _ =>
      let v := if neg then - mag else mag in
      if CRT.INTMAX_MAX <? v then (None, CRT.ERANGE)
      else if v <? CRT.INTMAX_MIN then (None, CRT.ERANGE)
      else ((if (v <? 0) || (CRT.UINT16_MAX <? v)
                || negb (Ascii.eqb (deref s (off + ndig)) NUL)
             then None else Some (v mod 2 ^ 16)), 0)
  end.

Definition verdict_spec (neg : bool) (ds : string) : option Z :=
  match ds with
  | EmptyString => None
  | String _ _ =>
      if all_digits ds then
        if neg then (if dec_val 0 ds =? 0 then Some 0 else None)
        else if dec_val 0 ds <=? 65535 then Some (dec_val 0 ds)
        else None
      else None
  end.

(** ** Further projections of a trace, and sequences of calls *)

(** The buffers passed to [free], and the file names passed to
    [LoadLibraryW]. *)
Definition frees (t : list Event) : list Z :=
  flat_map (fun e => match e with EvFree p => [p] | _ => [] end) t.

Definition loads (t : list Event) : list (list Z) :=
  flat_map (fun e => match e with
                     | EvLoadLibraryW _ f => [f]
                     | _ => []
                     end) t.

Fixpoint all_space (s : string) : bool :=
  match s with
  | String c r => isspace c && all_space r
  | EmptyString => true
  end.

(** What a client of the shim can do: one of the four entry points. *)
Inductive Call : Type :=
| CallOpen (file : option string) (mode : Z)
| CallClose (handle : Z)
| CallSym (handle : Z) (name : string)
| CallError.

(** The state after a call, and after a sequence of calls. *)
Definition call {K} (os : Platform K) (w : World K) (c : Call) : World K :=
  match c with
  | CallOpen file mode => snd (dlopen os file mode w)
  | CallClose h => snd (dlclose os h w)
  | CallSym h name => snd (dlsym os h name w)
  | CallError => snd (dlerror w)
  end.

Definition session {K} (os : Platform K) (cs : list Call) (w : World K)
  : World K :=
  fold_left (call os) cs w.

(** ** A platform on which everything fails quietly

    No memory, no library, no export; and no call sets an error code. *)

Module Quiet.

Definition platform : Platform unit :=
  mkPlatform unit
    4194304
    (fun k cp flags input cb buf cch =>
       mkReply (Z.of_nat (String.length input) + 1, []) None k)
    (fun k size => mkReply 0 None k)
    (fun k p => mkReply tt None k)
    (fun k mode filename => mkReply 0 None k)
    (fun k h => mkReply 0 None k)
    (fun k h sym => mkReply 0 None k).

End Quiet.

(** * Properties *)

#[local] Arguments Z.mul : simpl never.
#[local] Arguments Z.add : simpl never.
#[local] Arguments Z.sub : simpl never.
#[local] Arguments Z.opp : simpl never.
#[local] Arguments Z.pow : simpl never.
#[local] Arguments Z.div : simpl never.
#[local] Arguments Z.modulo : simpl never.
#[local] Arguments Z.of_nat : simpl never.

(** ** Characters and offsets *)

Lemma isdigit_code (c : ascii) : isdigit c = true <-> 48 <= code c <= 57.
Proof. unfold isdigit. rewrite andb_true_iff, !Z.leb_le. tauto. Qed.

Lemma isdigit_not_space (c : ascii) : isdigit c = true -> isspace c = false.
Proof.
  rewrite isdigit_code. unfold isspace. intros H.
  apply orb_false_iff. split.
  - apply Z.eqb_neq. lia.
  - apply andb_false_iff. right. apply Z.leb_gt. lia.
Qed.

Lemma isdigit_not_sign (c : ascii) :
  isdigit c = true -> Ascii.eqb c "-" = false /\ Ascii.eqb c "+" = false.
Proof.
  intros H. split; apply Ascii.eqb_neq; intros ->; discriminate H.
Qed.

Lemma isdigit_not_NUL (c : ascii) : isdigit c = true -> Ascii.eqb c NUL = false.
Proof. intros H. apply Ascii.eqb_neq. intros ->. discriminate H. Qed.

Lemma advance_add (a b : nat) (s : string) :
  advance (a + b) s = advance b (advance a s).
Proof.
  revert s. induction a as [|a IH]; intros s; simpl.
  - reflexivity.
  - destruct s as [|c r]; simpl.
    + destruct b; reflexivity.
    + apply IH.
Qed.

Lemma advance_length (s : string) : advance (String.length s) s = EmptyString.
Proof. induction s as [|c r IH]; simpl; auto. Qed.

Lemma string_app_assoc (s t u : string) :
  ((s ++ t) ++ u = s ++ (t ++ u))%string.
Proof. induction s as [|c r IH]; simpl; [reflexivity | now rewrite IH]. Qed.

Lemma string_app_length (s t : string) :
  String.length (s ++ t) = (String.length s + String.length t)%nat.
Proof. induction s as [|c r IH]; simpl; [reflexivity | now rewrite IH]. Qed.

Lemma dec_val_app (s t : string) (acc : Z) :
  dec_val acc (s ++ t) = dec_val (dec_val acc s) t.
Proof. revert acc. induction s as [|c r IH]; intros acc; simpl; auto. Qed.

Lemma dec_val_lower (s : string) (acc : Z) :
  all_digits s = true -> 0 <= acc -> acc <= dec_val acc s.
Proof.
  revert acc. induction s as [|c r IH]; intros acc H Hacc; simpl in *.
  - lia.
  - apply andb_true_iff in H as [Hc Hr]. apply isdigit_code in Hc.
    assert (Hacc' : 0 <= 10 * acc + (code c - 48)) by lia.
    specialize (IH _ Hr Hacc'). lia.
Qed.

(** ** The decimal conversion *)

Module CRTFacts.
Import CRT.

Lemma digit_char_code (d : Z) : 0 <= d <= 9 -> code (digit_char d) = 48 + d.
Proof.
  intros H. unfold code, digit_char.
  rewrite N_ascii_embedding; [lia|].
  change 256%N with (Z.to_N 256). apply Z2N.inj_lt; lia.
Qed.

Lemma utoa_fuel_acc (fuel : nat) (n : Z) (acc : string) :
  utoa_fuel fuel n acc = (utoa_fuel fuel n EmptyString ++ acc)%string.
Proof.
  revert n acc. induction fuel as [|f IH]; intros n acc; simpl.
  - reflexivity.
  - destruct (n / 10 =? 0); [reflexivity|].
    rewrite IH. rewrite (IH _ (String _ EmptyString)).
    rewrite string_app_assoc. reflexivity.
Qed.

Lemma utoa_fuel_digits (fuel : nat) (n : Z) :
  0 <= n -> all_digits (utoa_fuel fuel n EmptyString) = true.
Proof.
  assert (D : forall m, 0 <= m -> isdigit (digit_char (m mod 10)) = true).
  { intros m Hm. apply isdigit_code. rewrite digit_char_code.
    - pose proof (Z.mod_pos_bound m 10). lia.
    - pose proof (Z.mod_pos_bound m 10). lia. }
  assert (A : forall s t, all_digits s = true -> all_digits t = true ->
                          all_digits (s ++ t) = true).
  { induction s as [|c r IHs]; intros t Hs Ht; simpl in *; auto.
    apply andb_true_iff in Hs as [Hc Hr]. rewrite Hc. simpl. auto. }
  revert n. induction fuel as [|f IH]; intros n Hn; simpl.
  - rewrite D by assumption. reflexivity.
  - destruct (n / 10 =? 0).
    + simpl. rewrite D by assumption. reflexivity.
    + rewrite utoa_fuel_acc. apply A.
      * apply IH. apply Z.div_pos; lia.
      * simpl. rewrite D by assumption. reflexivity.
Qed.

(** With enough fuel the digits denote the number. *)
Lemma utoa_fuel_value (fuel : nat) (n : Z) :
  0 <= n < 10 ^ Z.of_nat (S fuel) ->
  dec_val 0 (utoa_fuel fuel n EmptyString) = n.
Proof.
  revert n. induction fuel as [|f IH]; intros n Hn.
  - simpl. change (10 ^ Z.of_nat 1) with 10 in Hn.
    rewrite digit_char_code; rewrite Z.mod_small; lia.
  - simpl utoa_fuel.
    assert (Hd : code (digit_char (n mod 10)) - 48 = n mod 10).
    { rewrite digit_char_code; [lia|].
      pose proof (Z.mod_pos_bound n 10). lia. }
    destruct (Z.eqb_spec (n / 10) 0) as [E|E].
    + simpl. rewrite Hd. pose proof (Z.div_mod n 10). lia.
    + rewrite utoa_fuel_acc, dec_val_app. rewrite IH.
      * simpl. rewrite Hd. pose proof (Z.div_mod n 10). lia.
      * split; [apply Z.div_pos; lia|].
        apply Z.div_lt_upper_bound; [lia|].
        rewrite <- Z.pow_succ_r by lia.
        replace (Z.succ (Z.of_nat (S f))) with (Z.of_nat (S (S f))) by lia.
        apply Hn.
Qed.

(** The number of digits is the least [k] with [n < 10 ^ k]. *)
Lemma utoa_fuel_length (fuel : nat) (n : Z) (k : nat) :
  0 <= n < 10 ^ Z.of_nat (S k) ->
  (String.length (utoa_fuel fuel n EmptyString) <= S k)%nat.
Proof.
  revert n k. induction fuel as [|f IH]; intros n k Hn; simpl.
  - lia.
  - destruct (Z.eqb_spec (n / 10) 0) as [E|E]; simpl; [lia|].
    rewrite utoa_fuel_acc, string_app_length. simpl.
    destruct k as [|k].
    + exfalso. apply E. change (10 ^ Z.of_nat 1) with 10 in Hn.
      apply Z.div_small. lia.
    + assert (String.length (utoa_fuel f (n / 10) EmptyString) <= S k)%nat; [|lia].
      apply IH. split; [apply Z.div_pos; lia|].
      apply Z.div_lt_upper_bound; [lia|].
      rewrite <- Z.pow_succ_r by lia.
      replace (Z.succ (Z.of_nat (S k))) with (Z.of_nat (S (S k))) by lia.
      apply Hn.
Qed.

Lemma log2_fuel (n : Z) : 0 <= n -> n < 10 ^ Z.of_nat (S (Z.to_nat (Z.log2 n))).
Proof.
  intros Hn. destruct (Z.eq_dec n 0) as [->|Hz]; [reflexivity|].
  pose proof (Z.log2_nonneg n) as Hl.
  rewrite Nat2Z.inj_succ, Z2Nat.id by assumption.
  apply Z.lt_le_trans with (2 ^ Z.succ (Z.log2 n)).
  - apply Z.log2_spec. lia.
  - apply Z.pow_le_mono_l. lia.
Qed.

(** [utoa] prints the decimal representation: digits only, and they
    denote the number. *)
Lemma utoa_decimal (n : Z) :
  0 <= n -> all_digits (utoa n) = true /\ dec_val 0 (utoa n) = n.
Proof.
  intros Hn. unfold utoa. split.
  - apply utoa_fuel_digits; assumption.
  - apply utoa_fuel_value. split; [assumption | apply log2_fuel; assumption].
Qed.

Lemma utoa_DWORD_length (n : Z) : is_DWORD n -> (String.length (utoa n) <= 10)%nat.
Proof.
  intros [H0 H1]. unfold utoa. apply (utoa_fuel_length _ n 9).
  unfold DWORD_MAX in H1. change (10 ^ Z.of_nat 10) with 10000000000. lia.
Qed.

End CRTFacts.

(** ** The numeric parse *)

Module ParseFacts.
Import CRT.

(** [str_to_uint16] without the monad. *)
Lemma str_to_uint16_unfold (s : string) (e : Z) :
  str_to_uint16 s e =
  let nws := span_space s in
  let s1 := advance nws s in
  let (neg, nsign) := scan_sign s1 in
  let (mag, ndig) := scan_digits (advance nsign s1) 0 O in
  match ndig with
  | O => (None, 0)
  | S _ =>
      let v := if neg then - mag else mag in
      if INTMAX_MAX <? v then (None, ERANGE)
      else if v <? INTMAX_MIN then (None, ERANGE)
      else ((if (v <? 0) || (UINT16_MAX <? v)
                || negb (Ascii.eqb (deref s (nws + nsign + ndig)) NUL)
             then None else Some (v mod 2 ^ 16)), 0)
  end.
Proof.
  unfold str_to_uint16, strtoimax, bind, set_errno, get_errno, modify, gets, ret.
  cbv zeta.
  destruct (scan_sign _) as [neg nsign].
  destruct (scan_digits _ _ _) as [mag ndig].
  destruct ndig as [|k]; [reflexivity|].
  destruct (INTMAX_MAX <? _) eqn:Hhi; [reflexivity|].
  destruct (_ <? INTMAX_MIN) eqn:Hlo; [reflexivity|].
  cbn -[Z.pow Nat.add deref].
  assert (E : (span_space s + nsign + S k =? 0)%nat = false)
    by (apply Nat.eqb_neq; lia).
  rewrite E, orb_false_r.
  destruct (_ || _); reflexivity.
Qed.

Lemma strip_space_advance (s : string) :
  strip_space s = advance (span_space s) s.
Proof.
  induction s as [|c r IH]; simpl; [reflexivity|].
  destruct (isspace c); [apply IH | reflexivity].
Qed.

Lemma scan_digits_all (s : string) (acc : Z) (n : nat) :
  all_digits s = true ->
  scan_digits s acc n = (dec_val acc s, (n + String.length s)%nat).
Proof.
  revert acc n. induction s as [|c r IH]; intros acc n H; simpl in *.
  - f_equal. lia.
  - apply andb_true_iff in H as [Hc Hr]. rewrite Hc, IH by assumption.
    f_equal. lia.
Qed.

(** A string that is not all digits stops the scan at a byte that is
    not a digit. *)
Lemma scan_digits_stop (s : string) :
  all_digits s = false ->
  forall acc n, exists k c r,
    snd (scan_digits s acc n) = (n + k)%nat /\
    advance k s = String c r /\ isdigit c = false.
Proof.
  induction s as [|a s IH]; simpl; intros H acc n; [discriminate|].
  destruct (isdigit a) eqn:D; simpl in H.
  - destruct (IH H (10 * acc + (code a - 48)) (S n)) as (k & c & r & E1 & E2 & E3).
    exists (S k), c, r. repeat split; [rewrite E1; lia | exact E2 | exact E3].
  - exists O, a, s. repeat split; [simpl; lia | exact D].
Qed.

Lemma nul_free_advance (n : nat) (s : string) (c : ascii) (r : string) :
  c_str s = s -> advance n s = String c r -> Ascii.eqb c NUL = false.
Proof.
  revert s. induction n as [|n IH]; intros [|a s] H E; simpl in *;
    try discriminate E.
  - injection E as -> ->. destruct (Ascii.eqb c NUL); [discriminate H | reflexivity].
  - destruct (Ascii.eqb a NUL); [discriminate H|].
    injection H as H. exact (IH s H E).
Qed.

Lemma verdict_correct (s : string) (neg : bool) (off : nat) (ds : string) :
  c_str s = s -> advance off s = ds ->
  fst (verdict s neg off ds) = verdict_spec neg ds.
Proof.
  intros Hs Hds. unfold verdict, verdict_spec.
  destruct (all_digits ds) eqn:A.
  - rewrite scan_digits_all by assumption.
    destruct ds as [|c r] eqn:Eds; [reflexivity|]. rewrite <- Eds in *.
    assert (Hlen : (0 + String.length ds)%nat = S (String.length r))
      by (rewrite Eds; reflexivity).
    rewrite Hlen. rewrite <- Hlen.
    assert (Hend : deref s (off + (0 + String.length ds)) = NUL).
    { unfold deref. rewrite advance_add, Hds. simpl.
      rewrite advance_length. reflexivity. }
    rewrite Hend. change (negb (Ascii.eqb NUL NUL)) with false.
    rewrite orb_false_r.
    pose proof (dec_val_lower ds 0 A (Z.le_refl 0)) as Hpos.
    unfold INTMAX_MAX, INTMAX_MIN, UINT16_MAX.
    destruct neg.
    + destruct (Z.ltb_spec (2 ^ 63 - 1) (- dec_val 0 ds)); [lia|].
      destruct (Z.eqb_spec (dec_val 0 ds) 0) as [E|E].
      * rewrite E. reflexivity.
      * destruct (Z.ltb_spec (- dec_val 0 ds) (- 2 ^ 63)); [reflexivity|].
        destruct (Z.ltb_spec (- dec_val 0 ds) 0); [reflexivity | lia].
    + destruct (Z.leb_spec (dec_val 0 ds) 65535).
      * destruct (Z.ltb_spec (2 ^ 63 - 1) (dec_val 0 ds)); [lia|].
        destruct (Z.ltb_spec (dec_val 0 ds) (- 2 ^ 63)); [lia|].
        destruct (Z.ltb_spec (dec_val 0 ds) 0); [lia|].
        destruct (Z.ltb_spec 65535 (dec_val 0 ds)); [lia|].
        simpl. rewrite Z.mod_small by lia. reflexivity.
      * destruct (Z.ltb_spec (2 ^ 63 - 1) (dec_val 0 ds)); [reflexivity|].
        destruct (Z.ltb_spec (dec_val 0 ds) (- 2 ^ 63)); [reflexivity|].
        destruct (Z.ltb_spec 65535 (dec_val 0 ds)); [|lia].
        rewrite orb_true_r. reflexivity.
  - destruct (scan_digits_stop ds A 0 O) as (k & c & r & E1 & E2 & E3).
    destruct (scan_digits ds 0 O) as [mag ndig]. simpl in E1. subst ndig.
    assert (Hne : ds <> EmptyString).
    { intros ->. destruct k; discriminate E2. }
    destruct ds as [|c0 r0]; [congruence|].
    destruct k as [|k]; [reflexivity|].
    assert (Hc : Ascii.eqb (deref s (off + S k)) NUL = false).
    { unfold deref. rewrite advance_add, Hds, E2.
      apply (nul_free_advance (off + S k) s c r Hs).
      rewrite advance_add, Hds. exact E2. }
    rewrite Hc. simpl negb. rewrite orb_true_r.
    destruct (INTMAX_MAX <? _); [reflexivity|].
    destruct (_ <? INTMAX_MIN); reflexivity.
Qed.

(** On a string without NUL the code accepts exactly the wider reading. *)
Lemma str_to_uint16_nul_free (s : string) (e : Z) :
  c_str s = s -> fst (str_to_uint16 s e) = lenient_decimal_u16 s.
Proof.
  intros Hs. rewrite str_to_uint16_unfold. unfold lenient_decimal_u16.
  rewrite Hs, strip_space_advance. cbv zeta.
  set (nws := span_space s).
  destruct (advance nws s) as [|c r] eqn:E1.
  - reflexivity.
  - unfold scan_sign.
    destruct (Ascii.eqb c "-") eqn:Em; [|destruct (Ascii.eqb c "+") eqn:Ep].
    + apply (verdict_correct s true (nws + 1) r Hs).
      rewrite advance_add, E1. reflexivity.
    + apply (verdict_correct s false (nws + 1) r Hs).
      rewrite advance_add, E1. reflexivity.
    + apply (verdict_correct s false (nws + 0) (String c r) Hs).
      rewrite Nat.add_0_r. exact E1.
Qed.

(** *** Only the bytes in front of the first NUL are read *)

Lemma c_str_idem (s : string) : c_str (c_str s) = c_str s.
Proof.
  induction s as [|c r IH]; simpl; [reflexivity|].
  destruct (Ascii.eqb c NUL) eqn:E; simpl; [reflexivity|].
  rewrite E, IH. reflexivity.
Qed.

Lemma NUL_plain (c : ascii) :
  Ascii.eqb c NUL = true ->
  isspace c = false /\ isdigit c = false /\
  Ascii.eqb c "-" = false /\ Ascii.eqb c "+" = false.
Proof. intros E. apply Ascii.eqb_eq in E. subst c. repeat split. Qed.

Lemma span_space_c_str (s : string) : span_space (c_str s) = span_space s.
Proof.
  induction s as [|c r IH]; simpl; [reflexivity|].
  destruct (Ascii.eqb c NUL) eqn:E; simpl.
  - destruct (NUL_plain c E) as (-> & _). reflexivity.
  - rewrite IH. reflexivity.
Qed.

Lemma span_space_le (s : string) : (span_space s <= String.length s)%nat.
Proof.
  induction s as [|c r IH]; simpl; [lia|]. destruct (isspace c); lia.
Qed.

Lemma advance_c_str (n : nat) (s : string) :
  (n <= String.length (c_str s))%nat ->
  advance n (c_str s) = c_str (advance n s).
Proof.
  revert s. induction n as [|n IH]; intros [|c r] H; simpl in *;
    try reflexivity.
  destruct (Ascii.eqb c NUL); simpl in *; [lia|]. apply IH. lia.
Qed.

Lemma advance_remaining (n : nat) (s : string) :
  (n <= String.length s)%nat ->
  (String.length (advance n s) + n = String.length s)%nat.
Proof.
  revert s. induction n as [|n IH]; intros [|c r] H; simpl in *; try lia.
  specialize (IH r). lia.
Qed.

Lemma scan_sign_c_str (x : string) : scan_sign (c_str x) = scan_sign x.
Proof.
  destruct x as [|c r]; simpl; [reflexivity|].
  destruct (Ascii.eqb c NUL) eqn:E; simpl; [|reflexivity].
  destruct (NUL_plain c E) as (_ & _ & -> & ->). reflexivity.
Qed.

Lemma scan_sign_le (x : string) : (snd (scan_sign x) <= String.length x)%nat.
Proof.
  destruct x as [|c r]; simpl; [lia|].
  destruct (Ascii.eqb c "-"); [simpl; lia|].
  destruct (Ascii.eqb c "+"); simpl; lia.
Qed.

Lemma scan_digits_c_str (x : string) (acc : Z) (n : nat) :
  scan_digits (c_str x) acc n = scan_digits x acc n.
Proof.
  revert acc n. induction x as [|c r IH]; intros acc n; simpl; [reflexivity|].
  destruct (Ascii.eqb c NUL) eqn:E; simpl.
  - destruct (NUL_plain c E) as (_ & -> & _). reflexivity.
  - rewrite IH. reflexivity.
Qed.

Lemma scan_digits_le (x : string) (acc : Z) (n : nat) :
  (snd (scan_digits x acc n) <= n + String.length x)%nat.
Proof.
  revert acc n. induction x as [|c r IH]; intros acc n; simpl; [lia|].
  destruct (isdigit c); simpl; [|lia].
  specialize (IH (10 * acc + (code c - 48)) (S n)). lia.
Qed.

Lemma deref_c_str (n : nat) (s : string) :
  (n <= String.length (c_str s))%nat ->
  Ascii.eqb (deref (c_str s) n) NUL = Ascii.eqb (deref s n) NUL.
Proof.
  intros H. unfold deref. rewrite advance_c_str by assumption.
  destruct (advance n s) as [|c r]; simpl; [reflexivity|].
  destruct (Ascii.eqb c NUL) eqn:E; simpl; [reflexivity | exact E].
Qed.

(** The end pointer stays inside the string. *)
Lemma end_in_bounds (t : string) :
  let nws := span_space t in
  let nsign := snd (scan_sign (advance nws t)) in
  let ndig := snd (scan_digits (advance nsign (advance nws t)) 0 O) in
  (nws <= String.length t /\
   nsign <= String.length (advance nws t) /\
   nws + nsign + ndig <= String.length t)%nat.
Proof.
  cbv zeta.
  pose proof (span_space_le t) as H1.
  pose proof (scan_sign_le (advance (span_space t) t)) as H2.
  pose proof (advance_remaining _ _ H1) as H3.
  pose proof (advance_remaining _ _ H2) as H4.
  pose proof (scan_digits_le
    (advance (snd (scan_sign (advance (span_space t) t)))
             (advance (span_space t) t)) 0 O) as H5.
  lia.
Qed.

Lemma str_to_uint16_c_str (s : string) (e : Z) :
  str_to_uint16 (c_str s) e = str_to_uint16 s e.
Proof.
  rewrite !str_to_uint16_unfold. cbv zeta.
  destruct (end_in_bounds (c_str s)) as (B1 & B2 & B3).
  rewrite span_space_c_str in *.
  rewrite advance_c_str in * by assumption.
  rewrite scan_sign_c_str in *.
  destruct (scan_sign (advance (span_space s) s)) as [neg nsign].
  simpl snd in *.
  rewrite advance_c_str in * by assumption.
  rewrite scan_digits_c_str in *.
  destruct (scan_digits _ 0 O) as [mag ndig]. simpl snd in *.
  destruct ndig as [|k]; [reflexivity|].
  rewrite deref_c_str by assumption. reflexivity.
Qed.

(** The code accepts exactly the wider reading, and yields its value. *)
Lemma str_to_uint16_spec (s : string) (e : Z) :
  fst (str_to_uint16 s e) = lenient_decimal_u16 s.
Proof.
  rewrite <- str_to_uint16_c_str.
  rewrite str_to_uint16_nul_free by apply c_str_idem.
  unfold lenient_decimal_u16. rewrite c_str_idem. reflexivity.
Qed.

(** The strict reading is part of the wider one. *)
Lemma strict_is_lenient (s : string) (v : Z) :
  strict_decimal_u16 s = Some v -> lenient_decimal_u16 s = Some v.
Proof.
  unfold strict_decimal_u16. destruct s as [|c r] eqn:Es; [discriminate|].
  rewrite <- Es. destruct (all_digits s) eqn:A; [|discriminate].
  destruct (dec_val 0 s <=? 65535) eqn:L; [|discriminate].
  simpl. intros [= <-].
  assert (Hc : isdigit c = true).
  { rewrite Es in A. simpl in A. apply andb_true_iff in A. tauto. }
  assert (Hnul : c_str s = s).
  { clear - A. induction s as [|a s IH]; simpl in *; [reflexivity|].
    apply andb_true_iff in A as [Ha Hs].
    rewrite (isdigit_not_NUL a Ha), IH by assumption. reflexivity. }
  unfold lenient_decimal_u16. rewrite Hnul. rewrite Es. simpl strip_space.
  rewrite (isdigit_not_space c Hc).
  destruct (isdigit_not_sign c Hc) as [-> ->].
  rewrite <- Es, A, L. reflexivity.
Qed.

Lemma all_digits_nul_free (s : string) : all_digits s = true -> c_str s = s.
Proof.
  induction s as [|a s IH]; simpl; intros A; [reflexivity|].
  apply andb_true_iff in A as [Ha Hs].
  rewrite (isdigit_not_NUL a Ha), IH by assumption. reflexivity.
Qed.

(** So is the strict reading with a plus sign in front. *)
Lemma plus_strict_is_lenient (ds : string) (v : Z) :
  strict_decimal_u16 ds = Some v ->
  lenient_decimal_u16 (String "+" ds) = Some v.
Proof.
  unfold strict_decimal_u16. destruct ds as [|c r] eqn:Es; [discriminate|].
  rewrite <- Es. destruct (all_digits ds) eqn:A; [|discriminate].
  destruct (dec_val 0 ds <=? 65535) eqn:L; [|discriminate].
  simpl. intros [= <-].
  unfold lenient_decimal_u16.
  change (c_str (String "+" ds)) with (String "+"%char (c_str ds)).
  rewrite (all_digits_nul_free ds A).
  change (strip_space (String "+" ds)) with (String "+"%char ds).
  cbv iota beta. change (Ascii.eqb "+" "-") with false.
  change (Ascii.eqb "+" "+") with true. cbv iota.
  rewrite Es. rewrite <- Es. rewrite A, L. reflexivity.
Qed.

End ParseFacts.


(** ** The shim against an arbitrary platform *)

Lemma skipn_exact {A} (l x : list A) : skipn (length l) (l ++ x) = x.
Proof. induction l as [|a l IH]; simpl; auto. Qed.

Lemma since_app {K} (w w' : World K) (ev : list Event) :
  trace w' = trace w ++ ev -> since w w' = ev.
Proof. intros H. unfold since. rewrite H. apply skipn_exact. Qed.

(** Bring a trace to the form [trace w ++ events]. *)
Ltac trace_eq :=
  simpl trace;
  repeat match goal with H : trace _ = _ |- _ => rewrite H end;
  rewrite <- ?app_assoc; simpl app; try reflexivity.

Ltac since_eq :=
  match goal with
  | |- context [since ?w ?w'] =>
      erewrite (since_app w w') by trace_eq
  end.

Section ShimFacts.

Variable K : Type.
Variable os : Platform K.

(** The path conversion touches neither the slot nor the error mode. *)
Lemma UTF8toWCHAR_frame (f : string) (w : World K) :
  let w1 := snd (UTF8toWCHAR os f w) in
  lastError w1 = lastError w /\ error_mode w1 = error_mode w /\
  exists ev, trace w1 = trace w ++ ev /\
             stores ev = [] /\ platform_errors ev = [] /\
             mode_changes ev = [].
Proof.
  unfold UTF8toWCHAR, MultiByteToWideChar, malloc, free, SetLastError,
    syscall, emit, bind, modify, ret.
  cbv zeta.
  repeat match goal with
         | |- context [if ?b then _ else _] => destruct b
         end;
    simpl; (split; [reflexivity|]); (split; [reflexivity|]);
    eexists; (split; [trace_eq|]); repeat split.
Qed.

(** *** resolve: which lookup is requested *)

(** [dlsym] requests one lookup, for the reference the wider reading
    of the name gives. *)
Lemma dlsym_lookups (h : Z) (name : string) (w : World K) :
  lookups (since w (snd (dlsym os h name w))) =
  [(h, match lenient_decimal_u16 name with
       | Some o => ByOrdinal o
       | None => ByName name
       end)].
Proof.
  unfold dlsym, crt_call, bind.
  pose proof (ParseFacts.str_to_uint16_spec name (errno w)) as Hp.
  destruct (str_to_uint16 name (errno w)) as [o e']. simpl in Hp. subst o.
  destruct (lenient_decimal_u16 name) as [o|];
    unfold GetProcAddress, GetLastError, store_lastError, syscall, emit,
      bind, modify, gets, ret; cbv zeta;
    match goal with
    | |- context [if ?b then _ else _] => destruct b
    end; simpl; since_eq; reflexivity.
Qed.

(** C1 (as amended): a name that is not a number even in the wider reading
    (white space, one optional sign, digits to the end, value in
    [0, 65535]) is looked up by name, with the original string, and no
    lookup by ordinal is requested. *)
Theorem dlsym_falls_back_to_name (h : Z) (name : string) (w : World K) :
  lenient_decimal_u16 name = None ->
  lookups (since w (snd (dlsym os h name w))) = [(h, ByName name)].
Proof. intros H. rewrite dlsym_lookups, H. reflexivity. Qed.

(** C2: a name composed purely of ASCII digits whose value lies in
    [0, 65535] is looked up by ordinal, the ordinal being that value, and
    no lookup by name is requested. *)
Theorem dlsym_digits_by_ordinal (h : Z) (name : string) (v : Z) (w : World K) :
  strict_decimal_u16 name = Some v ->
  lookups (since w (snd (dlsym os h name w))) = [(h, ByOrdinal v)] /\
  v = dec_val 0 name /\ 0 <= v <= 65535.
Proof.
  intros H. rewrite dlsym_lookups, (ParseFacts.strict_is_lenient name v H).
  split; [reflexivity|].
  unfold strict_decimal_u16 in H. destruct name as [|c r] eqn:E; [discriminate|].
  rewrite <- E in *.
  destruct (all_digits name) eqn:A; [|discriminate].
  destruct (Z.leb_spec (dec_val 0 name) 65535); [|discriminate].
  simpl in H. injection H as <-.
  pose proof (dec_val_lower name 0 A (Z.le_refl 0)). lia.
Qed.

(** C9: a plus sign in front of digits whose value lies in [0, 65535] is
    accepted by the numeric parse: the lookup is by ordinal. *)
Theorem dlsym_plus_sign_by_ordinal (h : Z) (ds : string) (v : Z) (w : World K) :
  strict_decimal_u16 ds = Some v ->
  fst (str_to_uint16 (String "+" ds) (errno w)) = Some v /\
  lookups (since w (snd (dlsym os h (String "+" ds) w))) = [(h, ByOrdinal v)].
Proof.
  intros H.
  rewrite dlsym_lookups, ParseFacts.str_to_uint16_spec,
    (ParseFacts.plus_strict_is_lenient ds v H).
  split; reflexivity.
Qed.

(** C10: which lookup [dlsym] requests, by ordinal or by name and with
    which ordinal, depends on the name alone: not on the handle, not on
    the state before the call (the slot, [errno], the loader), not on
    the platform. *)
Theorem dlsym_dispatch_depends_on_name_only
    (os' : Platform K) (h1 h2 : Z) (name : string) (w1 w2 : World K) :
  exists sym,
    lookups (since w1 (snd (dlsym os h1 name w1))) = [(h1, sym)] /\
    lookups (since w2 (snd (dlsym os' h2 name w2))) = [(h2, sym)].
Proof.
  eexists. split; [apply dlsym_lookups|].
  unfold dlsym, crt_call, bind.
  pose proof (ParseFacts.str_to_uint16_spec name (errno w2)) as Hp.
  destruct (str_to_uint16 name (errno w2)) as [o e']. simpl in Hp. subst o.
  destruct (lenient_decimal_u16 name) as [o|];
    unfold GetProcAddress, GetLastError, store_lastError, syscall, emit,
      bind, modify, gets, ret; cbv zeta;
    match goal with
    | |- context [if ?b then _ else _] => destruct b
    end; simpl; since_eq; reflexivity.
Qed.

(** *** open, close, resolve: the Last-Error Slot *)

Ltac run_shim :=
  unfold GetModuleHandle_NULL, GetErrorMode, SetErrorMode, LoadLibraryW,
    FreeLibrary, GetProcAddress, GetLastError, store_lastError, free,
    syscall, emit, bind, modify, gets, ret;
  cbv zeta; simpl.

Ltac slot_eq :=
  unfold slot_policy; since_eq;
  unfold stores, platform_errors, mode_changes in *;
  rewrite ?flat_map_app;
  repeat match goal with H : flat_map _ _ = [] |- _ => rewrite H end;
  simpl.

Lemma dlsym_slot (h : Z) (name : string) (w : World K) :
  slot_policy (fst (dlsym os h name w) =? NULL) w (snd (dlsym os h name w)).
Proof.
  unfold dlsym, crt_call, bind.
  destruct (str_to_uint16 name (errno w)) as [[o|] e']; run_shim;
    match goal with
    | |- context [if ?b then _ else _] => destruct b eqn:E
    end; simpl; rewrite E; slot_eq; eauto.
Qed.

Lemma dlclose_slot (h : Z) (w : World K) :
  slot_policy (negb (fst (dlclose os h w) =? 0)) w (snd (dlclose os h w)).
Proof.
  unfold dlclose. run_shim.
  destruct (h =? main_image os); simpl; [slot_eq; eauto|].
  destruct (result (os_FreeLibrary os (kernel w) h) =? 0);
    simpl; slot_eq; eauto.
Qed.

Lemma dlopen_path_slot (f : string) (mode : Z) (w : World K) :
  slot_policy (fst (dlopen os (Some f) mode w) =? NULL) w
              (snd (dlopen os (Some f) mode w)).
Proof.
  unfold dlopen, bind.
  pose proof (UTF8toWCHAR_frame f w) as (H1 & H2 & ev & H3 & H4 & H5 & H6).
  destruct (UTF8toWCHAR os f w) as [[[p wname]|] w1]; simpl in H1, H2, H3.
  - run_shim.
    match goal with
    | |- context [if ?b then _ else _] => destruct b eqn:E
    end; simpl; rewrite E; slot_eq; eauto.
  - run_shim. slot_eq. eauto.
Qed.

(** *** open: the error mode, the mode flags *)

(** C6: when [dlopen] reaches [LoadLibraryW], the error mode is read,
    set to its value with [SEM_FAILCRITICALERRORS] added, the library is
    loaded under that mode, and the mode read is set again, whether the
    load failed or not; these are the only changes of the mode during
    the call, and the mode after the call is the mode before it. *)
Theorem dlopen_restores_error_mode
    (f : string) (mode : Z) (w w1 : World K) (p : Z) (wname : list Z) :
  UTF8toWCHAR os f w = (Some (p, wname), w1) ->
  let m := error_mode w in
  let r := dlopen os (Some f) mode w in
  error_mode (snd r) = m /\
  mode_changes (since w (snd r)) = [Z.lor m SEM_FAILCRITICALERRORS; m] /\
  exists mid,
    since w1 (snd r) =
      [EvGetErrorMode; EvSetErrorMode (Z.lor m SEM_FAILCRITICALERRORS);
       EvLoadLibraryW (Z.lor m SEM_FAILCRITICALERRORS) wname]
      ++ mid ++ [EvSetErrorMode m; EvFree p] /\
    mode_changes mid = [] /\
    (mid = [] <-> fst r <> NULL).
Proof.
  intros HU. cbv zeta.
  pose proof (UTF8toWCHAR_frame f w) as (H1 & H2 & ev & H3 & H4 & H5 & H6).
  unfold dlopen, bind. rewrite HU in *. simpl in H1, H2, H3.
  run_shim. rewrite H2.
  destruct (result (os_LoadLibraryW os (kernel w1)
              (Z.lor (error_mode w) SEM_FAILCRITICALERRORS) wname) =? NULL)
    eqn:E; simpl.
  - split; [reflexivity|]. split.
    + since_eq. unfold mode_changes in *. rewrite flat_map_app, H6.
      reflexivity.
    + eexists [_; _]. split; [|split].
      * apply since_app. trace_eq.
      * reflexivity.
      * apply Z.eqb_eq in E. split; [discriminate | tauto].
  - split; [reflexivity|]. split.
    + since_eq. unfold mode_changes in *. rewrite flat_map_app, H6.
      reflexivity.
    + exists []. split; [|split].
      * apply since_app. trace_eq.
      * reflexivity.
      * apply Z.eqb_neq in E. tauto.
Qed.

(** C7: the mode flags have no influence on [dlopen]: with the same path
    and from the same state, two values of [mode] give the same handle
    and the same state afterwards. *)
Theorem dlopen_ignores_mode
    (file : option string) (m1 m2 : Z) (w : World K) :
  dlopen os file m1 w = dlopen os file m2 w.
Proof. destruct file; reflexivity. Qed.

Section MainImage.

(** [GetModuleHandle(NULL)] is the handle of the running executable;
    it is never [NULL]. *)
Hypothesis main_image_loaded : main_image os <> NULL.

(** C3: [dlopen], [dlclose] and [dlsym] assign the platform's error
    code to the Last-Error Slot when they fail (a [NULL] handle, a
    [NULL] address, a nonzero status) and only then; when they succeed
    the slot keeps its value. *)
Theorem slot_written_iff_failure (w : World K) :
  (forall file mode,
     let r := dlopen os file mode w in
     slot_policy (fst r =? NULL) w (snd r)) /\
  (forall h,
     let r := dlclose os h w in
     slot_policy (negb (fst r =? 0)) w (snd r)) /\
  (forall h name,
     let r := dlsym os h name w in
     slot_policy (fst r =? NULL) w (snd r)).
Proof.
  split; [|split]; cbv zeta.
  - intros [f|] mode; [apply dlopen_path_slot|].
    unfold dlopen. run_shim.
    destruct (Z.eqb_spec (main_image os) NULL) as [E|_]; [contradiction|].
    slot_eq. auto.
  - intros h. apply dlclose_slot.
  - intros h name. apply dlsym_slot.
Qed.

(** C5: [dlopen] without a path returns the handle of the main image,
    which is not [NULL]; it only asks for that handle, so the slot and
    the error mode are not touched.  [dlclose] on that handle, in any
    later state, returns 0; it does not call [FreeLibrary] and does not
    touch the slot. *)
Theorem main_image_open_close (mode : Z) (w w2 : World K) :
  let r := dlopen os None mode w in
  (fst r = main_image os /\ fst r <> NULL /\
   since w (snd r) = [EvGetModuleHandle] /\
   lastError (snd r) = lastError w /\
   error_mode (snd r) = error_mode w) /\
  let c := dlclose os (fst r) w2 in
  (fst c = 0 /\ unloads (since w2 (snd c)) = [] /\
   since w2 (snd c) = [EvGetModuleHandle] /\
   lastError (snd c) = lastError w2).
Proof.
  cbv zeta. unfold dlopen, dlclose. run_shim.
  rewrite Z.eqb_refl. simpl.
  repeat split; try assumption; since_eq; reflexivity.
Qed.

End MainImage.

End ShimFacts.

(** *** last_error *)

(** C4: with a nonzero code in the slot, [dlerror] returns the literal
    ["Win32 error "] followed by the code in decimal and resets the slot to
    zero, so that a second call right after returns [NULL]; with zero in
    the slot it returns [NULL] and the slot stays zero. *)
Theorem dlerror_consumes_error {K} (w : World K) :
  is_DWORD (lastError w) ->
  let r := dlerror w in
  if lastError w =? 0
  then fst r = None /\ lastError (snd r) = 0 /\ since w (snd r) = []
  else (exists d, fst r = Some ("Win32 error " ++ d)%string /\
                  all_digits d = true /\ dec_val 0 d = lastError w) /\
       lastError (snd r) = 0 /\
       fst (dlerror (snd r)) = None.
Proof.
  intros [H0 _]. cbv zeta.
  unfold dlerror, store_lastError, emit, bind, modify, gets, ret.
  destruct (Z.eqb_spec (lastError w) 0) as [E|E]; simpl.
  - repeat split; [exact E|]. apply since_app. rewrite app_nil_r. reflexivity.
  - repeat split. exists (CRT.utoa (lastError w)).
    destruct (CRTFacts.utoa_decimal (lastError w) H0) as [A V].
    repeat split; assumption.
Qed.

(** C8: for every 32-bit value of the slot, the message [dlerror] formats
    takes, with its terminator, at most 23 bytes, so it fits the 64 bytes
    of [errorMessage]. *)
Theorem dlerror_message_fits {K} (w : World K) (msg : string) :
  is_DWORD (lastError w) ->
  fst (dlerror w) = Some msg ->
  Z.of_nat (String.length msg) + 1 <= 23 /\ 23 <= errorMessage_size.
Proof.
  intros HD. unfold dlerror, store_lastError, emit, bind, modify, gets, ret.
  destruct (lastError w =? 0); simpl; [discriminate|].
  intros [= <-]. unfold sprintf_Win32_error, errorMessage_size.
  rewrite string_app_length.
  pose proof (CRTFacts.utoa_DWORD_length _ HD).
  change (String.length "Win32 error ") with 12%nat. lia.
Qed.

(** ** The slot and the thread's error code stay 32-bit values *)

Lemma to_DWORD_range (v : Z) : is_DWORD (to_DWORD v).
Proof.
  unfold is_DWORD, to_DWORD, DWORD_MAX.
  pose proof (Z.mod_pos_bound v (2 ^ 32)). lia.
Qed.

Section Invariant.

Variable K : Type.
Variable os : Platform K.

Ltac run_all :=
  unfold UTF8toWCHAR, MultiByteToWideChar, malloc, SetLastError,
    GetModuleHandle_NULL, GetErrorMode, SetErrorMode, LoadLibraryW,
    FreeLibrary, GetProcAddress, GetLastError, store_lastError, free,
    syscall, emit, bind, modify, gets, ret;
  cbv zeta; simpl.

Ltac dword_cases :=
  repeat match goal with
         | |- context [if ?b then _ else _] => destruct b; simpl
         end;
  unfold DWORD_state; simpl;
  repeat match goal with
         | |- context [match set_error ?r with _ => _ end] =>
             destruct (set_error r)
         end;
  auto using to_DWORD_range.

Lemma UTF8toWCHAR_DWORD (f : string) (w : World K) :
  DWORD_state w -> DWORD_state (snd (UTF8toWCHAR os f w)).
Proof. intros [H1 H2]. run_all. dword_cases. Qed.

Lemma dlopen_DWORD (file : option string) (mode : Z) (w : World K) :
  DWORD_state w -> DWORD_state (snd (dlopen os file mode w)).
Proof.
  intros H. destruct file as [f|]; [|exact H].
  unfold dlopen, bind.
  pose proof (UTF8toWCHAR_DWORD f w H) as [H1 H2].
  destruct (UTF8toWCHAR os f w) as [[[p wname]|] w1]; simpl in H1, H2;
    run_all; dword_cases.
Qed.

Lemma dlclose_DWORD (h : Z) (w : World K) :
  DWORD_state w -> DWORD_state (snd (dlclose os h w)).
Proof. intros [H1 H2]. unfold dlclose. run_all. dword_cases. Qed.

Lemma dlsym_DWORD (h : Z) (name : string) (w : World K) :
  DWORD_state w -> DWORD_state (snd (dlsym os h name w)).
Proof.
  intros [H1 H2]. unfold dlsym, crt_call, bind.
  destruct (str_to_uint16 name (errno w)) as [[o|] e']; run_all; dword_cases.
Qed.

Lemma dlerror_DWORD (w : World K) :
  DWORD_state w -> DWORD_state (snd (dlerror w)).
Proof.
  intros [H1 H2]. unfold dlerror. run_all.
  destruct (lastError w =? 0); unfold DWORD_state; simpl; split; auto.
  unfold is_DWORD, DWORD_MAX. change (2 ^ 32 - 1) with 4294967295. lia.
Qed.

End Invariant.

(** ** Runs on the demonstration platform *)

Import Demo.

Example run_digits : str_to_uint16 "12" 5 = (Some 12, 0).
Proof. reflexivity. Qed.

Example run_leading_space : str_to_uint16 " 12" 0 = (Some 12, 0).
Proof. reflexivity. Qed.

Example run_minus_zero : str_to_uint16 "-0" 0 = (Some 0, 0).
Proof. reflexivity. Qed.

Example run_overflow :
  str_to_uint16 "99999999999999999999" 0 = (None, CRT.ERANGE).
Proof. reflexivity. Qed.

Example run_missing_library :
  dlopen platform (Some "b.dll"%string) 0 w0 =
  (0, mkWorld 126 0 126 0 tt
        [EvMultiByteToWideChar "b.dll" 0 0; EvMalloc 12;
         EvMultiByteToWideChar "b.dll" 65536 6; EvGetErrorMode;
         EvSetErrorMode 1; EvLoadLibraryW 1 (wide "b.dll");
         EvGetLastError 126; EvStoreLastError 126;
         EvSetErrorMode 0; EvFree 65536]).
Proof. reflexivity. Qed.

(** C1 as stated fails: [" 12"] is not a strict decimal number, yet
    [dlsym] looks it up as ordinal 12. *)
Lemma strict_reading_counterexample :
  ~ (forall (K : Type) (os : Platform K) (h : Z) (name : string) (w : World K),
       strict_decimal_u16 name = None ->
       lookups (since w (snd (dlsym os h name w))) = [(h, ByName name)]).
Proof.
  intros H.
  specialize (H unit platform lib " 12"%string w0 eq_refl).
  vm_compute in H. discriminate H.
Qed.

Lemma dlsym_falls_back_to_name_witness :
  (lenient_decimal_u16 "65536" = None /\
   lookups (since w0 (snd (dlsym platform lib "65536" w0)))
   = [(lib, ByName "65536")]) /\
  (lenient_decimal_u16 "-1" = None /\
   lookups (since w0 (snd (dlsym platform lib "-1" w0)))
   = [(lib, ByName "-1")]) /\
  (lenient_decimal_u16 "" = None /\
   lookups (since w0 (snd (dlsym platform lib "" w0)))
   = [(lib, ByName "")]) /\
  (lenient_decimal_u16 "12a" = None /\
   lookups (since w0 (snd (dlsym platform lib "12a" w0)))
   = [(lib, ByName "12a")]) /\
  (lenient_decimal_u16 "   " = None /\
   lookups (since w0 (snd (dlsym platform lib "   " w0)))
   = [(lib, ByName "   ")]).
Proof.
  pose proof (fun name H =>
    conj H (dlsym_falls_back_to_name unit platform lib name w0 H)) as W.
  split; [exact (W "65536"%string eq_refl)|].
  split; [exact (W "-1"%string eq_refl)|].
  split; [exact (W ""%string eq_refl)|].
  split; [exact (W "12a"%string eq_refl)|].
  exact (W "   "%string eq_refl).
Defined.

Lemma dlsym_digits_by_ordinal_witness :
  strict_decimal_u16 "65535" = Some 65535 /\
  lookups (since w0 (snd (dlsym platform lib "65535" w0)))
  = [(lib, ByOrdinal 65535)] /\
  65535 = dec_val 0 "65535" /\ 0 <= 65535 <= 65535.
Proof.
  split; [reflexivity|].
  apply (dlsym_digits_by_ordinal unit platform lib "65535" 65535 w0).
  reflexivity.
Defined.

Lemma dlsym_plus_sign_by_ordinal_witness :
  strict_decimal_u16 "12" = Some 12 /\
  fst (str_to_uint16 "+12" (errno w0)) = Some 12 /\
  lookups (since w0 (snd (dlsym platform lib "+12" w0)))
  = [(lib, ByOrdinal 12)].
Proof.
  split; [reflexivity|].
  apply (dlsym_plus_sign_by_ordinal unit platform lib "12" 12 w0).
  reflexivity.
Defined.

Lemma slot_written_iff_failure_witness :
  main_image platform <> NULL /\
  slot_policy true w0 (snd (dlopen platform (Some "b.dll"%string) 0 w0)) /\
  slot_policy false w_err (snd (dlopen platform (Some "a.dll"%string) 0 w_err)) /\
  slot_policy true w0 (snd (dlclose platform 5 w0)) /\
  slot_policy false w_err (snd (dlsym platform lib "f" w_err)).
Proof.
  assert (Hm : main_image platform <> NULL) by (vm_compute; discriminate).
  split; [exact Hm|].
  split; [exact (proj1 (slot_written_iff_failure unit platform Hm w0)
                   (Some "b.dll"%string) 0)|].
  split; [exact (proj1 (slot_written_iff_failure unit platform Hm w_err)
                   (Some "a.dll"%string) 0)|].
  split; [exact (proj1 (proj2 (slot_written_iff_failure unit platform Hm w0)) 5)|].
  exact (proj2 (proj2 (slot_written_iff_failure unit platform Hm w_err))
           lib "f"%string).
Defined.

Lemma main_image_open_close_witness :
  main_image platform <> NULL /\
  (fst (dlopen platform None 2 w_err) = 4194304 /\
   fst (dlopen platform None 2 w_err) <> NULL /\
   since w_err (snd (dlopen platform None 2 w_err)) = [EvGetModuleHandle] /\
   lastError (snd (dlopen platform None 2 w_err)) = 4294967295 /\
   error_mode (snd (dlopen platform None 2 w_err)) = 2) /\
  (fst (dlclose platform 4194304 w0) = 0 /\
   unloads (since w0 (snd (dlclose platform 4194304 w0))) = [] /\
   since w0 (snd (dlclose platform 4194304 w0)) = [EvGetModuleHandle] /\
   lastError (snd (dlclose platform 4194304 w0)) = 0).
Proof.
  assert (Hm : main_image platform <> NULL) by (vm_compute; discriminate).
  split; [exact Hm|].
  exact (main_image_open_close unit platform Hm 2 w_err w0).
Defined.

Lemma dlopen_restores_error_mode_witness :
  UTF8toWCHAR platform "a.dll" w_err
  = (Some (65536, wide "a.dll"), snd (UTF8toWCHAR platform "a.dll" w_err)) /\
  error_mode (snd (dlopen platform (Some "a.dll"%string) 0 w_err)) = 2 /\
  mode_changes (since w_err (snd (dlopen platform (Some "a.dll"%string) 0 w_err)))
  = [3; 2].
Proof.
  split; [reflexivity|].
  pose proof (dlopen_restores_error_mode unit platform "a.dll" 0 w_err
                (snd (UTF8toWCHAR platform "a.dll" w_err)) 65536
                (wide "a.dll") eq_refl) as (H1 & H2 & _).
  split; [exact H1 | exact H2].
Defined.

Lemma dlerror_consumes_error_witness :
  is_DWORD (lastError w_err) /\
  (exists d, fst (dlerror w_err) = Some ("Win32 error " ++ d)%string /\
             all_digits d = true /\ dec_val 0 d = 4294967295) /\
  lastError (snd (dlerror w_err)) = 0 /\
  fst (dlerror (snd (dlerror w_err))) = None.
Proof.
  assert (Hd : is_DWORD (lastError w_err)) by (vm_compute; split; discriminate).
  split; [exact Hd|].
  exact (dlerror_consumes_error w_err Hd).
Defined.

Lemma dlerror_message_fits_witness :
  is_DWORD (lastError w_err) /\
  fst (dlerror w_err) = Some "Win32 error 4294967295"%string /\
  Z.of_nat (String.length "Win32 error 4294967295") + 1 <= 23 /\
  23 <= errorMessage_size.
Proof.
  assert (Hd : is_DWORD (lastError w_err)) by (vm_compute; split; discriminate).
  split; [exact Hd|]. split; [reflexivity|].
  exact (dlerror_message_fits w_err "Win32 error 4294967295" Hd eq_refl).
Defined.


(** * Further properties *)

(** ** The numeric parse *)

(** X1: [str_to_uint16] accepts exactly the wider reading of a number and
    yields its value; the value [errno] had before the call has no
    influence on the result or on [errno] afterwards. *)
Theorem str_to_uint16_accepts_exactly (s : string) (e : Z) :
  fst (str_to_uint16 s e) = lenient_decimal_u16 s /\
  str_to_uint16 s e = str_to_uint16 s 0.
Proof.
  split.
  - apply ParseFacts.str_to_uint16_spec.
  - rewrite !ParseFacts.str_to_uint16_unfold. reflexivity.
Qed.


Lemma c_str_space_app (ws s : string) :
  all_space ws = true -> c_str (ws ++ s) = (ws ++ c_str s)%string.
Proof.
  induction ws as [|c r IH]; simpl; intros H; [reflexivity|].
  apply andb_true_iff in H as [Hc Hr].
  destruct (Ascii.eqb c NUL) eqn:E.
  - destruct (ParseFacts.NUL_plain c E) as (Hs & _). congruence.
  - rewrite IH by assumption. reflexivity.
Qed.

Lemma strip_space_app (ws s : string) :
  all_space ws = true -> strip_space (ws ++ s) = strip_space s.
Proof.
  induction ws as [|c r IH]; simpl; intros H; [reflexivity|].
  apply andb_true_iff in H as [Hc Hr]. rewrite Hc. auto.
Qed.

(** X3: white space in front of a string never changes the verdict of
    [str_to_uint16]: the string with the white space is accepted, with the
    same value, exactly when the string without it is. *)
Theorem str_to_uint16_skips_leading_space (ws s : string) (e : Z) :
  all_space ws = true ->
  fst (str_to_uint16 (ws ++ s) e) = fst (str_to_uint16 s e).
Proof.
  intros H. rewrite !ParseFacts.str_to_uint16_spec.
  unfold lenient_decimal_u16.
  rewrite c_str_space_app, strip_space_app by assumption. reflexivity.
Qed.

Lemma all_digits_snoc (s : string) (c : ascii) :
  isdigit c = false -> all_digits (s ++ String c EmptyString) = false.
Proof.
  intros H. induction s as [|a r IH]; simpl.
  - rewrite H. reflexivity.
  - rewrite IH. apply andb_false_r.
Qed.

Lemma c_str_snoc (s : string) (c : ascii) :
  c_str s = s -> Ascii.eqb c NUL = false ->
  c_str (s ++ String c EmptyString) = (s ++ String c EmptyString)%string.
Proof.
  intros Hs Hc. induction s as [|a r IH]; simpl in *.
  - rewrite Hc. reflexivity.
  - destruct (Ascii.eqb a NUL); [discriminate Hs|].
    injection Hs as Hs. rewrite IH by assumption. reflexivity.
Qed.

(** After the white space is stripped, what is left of a string ending in
    [c] is empty or still ends in [c]. *)
Lemma strip_space_snoc (s : string) (c : ascii) :
  strip_space (s ++ String c EmptyString) = EmptyString \/
  exists s', strip_space (s ++ String c EmptyString)
             = (s' ++ String c EmptyString)%string.
Proof.
  induction s as [|a r IH]; simpl.
  - destruct (isspace c); [left; reflexivity|].
    right. exists EmptyString. reflexivity.
  - destruct (isspace a); [exact IH|].
    right. exists (String a r). reflexivity.
Qed.

(** X4: a string whose last byte is not a digit is rejected by
    [str_to_uint16], whatever comes before it: trailing white space, a
    trailing letter or a lone sign all make the parse fail. *)
Theorem str_to_uint16_rejects_trailing_byte (s : string) (c : ascii) (e : Z) :
  c_str s = s -> Ascii.eqb c NUL = false -> isdigit c = false ->
  fst (str_to_uint16 (s ++ String c EmptyString) e) = None.
Proof.
  intros Hs Hc Hd. rewrite ParseFacts.str_to_uint16_spec.
  unfold lenient_decimal_u16. rewrite c_str_snoc by assumption.
  destruct (strip_space_snoc s c) as [E|[s' E]]; rewrite E; [reflexivity|].
  destruct s' as [|a r]; simpl.
  - destruct (Ascii.eqb c "-"); [reflexivity|].
    destruct (Ascii.eqb c "+"); [reflexivity|].
    simpl. rewrite Hd. reflexivity.
  - pose proof (all_digits_snoc r c Hd) as Hr.
    pose proof (all_digits_snoc (String a r) c Hd) as Har.
    destruct (Ascii.eqb a "-"); [|destruct (Ascii.eqb a "+")].
    + destruct (r ++ String c EmptyString)%string; [reflexivity|].
      rewrite Hr. reflexivity.
    + destruct (r ++ String c EmptyString)%string; [reflexivity|].
      rewrite Hr. reflexivity.
    + change (String a (r ++ String c EmptyString))
        with (String a r ++ String c EmptyString)%string.
      rewrite Har. reflexivity.
Qed.

(** [str_to_uint16] on a non-empty string of digits. *)
Lemma str_to_uint16_digits (ds : string) (e : Z) :
  all_digits ds = true -> ds <> EmptyString ->
  str_to_uint16 ds e =
  if CRT.INTMAX_MAX <? dec_val 0 ds then (None, CRT.ERANGE)
  else (if 65535 <? dec_val 0 ds then None else Some (dec_val 0 ds), 0).
Proof.
  intros A Hne. rewrite ParseFacts.str_to_uint16_unfold. cbv zeta.
  pose proof (dec_val_lower ds 0 A (Z.le_refl 0)) as Hpos.
  destruct ds as [|c r] eqn:Eds; [congruence|].
  assert (Hc : isdigit c = true).
  { simpl in A. apply andb_true_iff in A. tauto. }
  simpl CRT.span_space. rewrite (isdigit_not_space c Hc).
  simpl advance. unfold CRT.scan_sign.
  destruct (isdigit_not_sign c Hc) as [-> ->].
  simpl advance. rewrite <- Eds in *.
  rewrite ParseFacts.scan_digits_all by assumption.
  assert (Hlen : (0 + String.length ds)%nat = S (String.length r))
    by (rewrite Eds; reflexivity).
  rewrite Hlen.
  assert (Hend : deref ds (0 + 0 + S (String.length r)) = NUL).
  { unfold deref. simpl Nat.add. rewrite <- Hlen. simpl Nat.add.
    rewrite advance_length. reflexivity. }
  rewrite Hend. change (negb (Ascii.eqb NUL NUL)) with false.
  rewrite orb_false_r.
  destruct (CRT.INTMAX_MAX <? dec_val 0 ds); [reflexivity|].
  unfold CRT.INTMAX_MIN, CRT.UINT16_MAX.
  destruct (Z.ltb_spec (dec_val 0 ds) (- 2 ^ 63)); [lia|].
  destruct (Z.ltb_spec (dec_val 0 ds) 0); [lia|].
  destruct (Z.ltb_spec 65535 (dec_val 0 ds)); simpl; [reflexivity|].
  rewrite Z.mod_small; [reflexivity|]. change (2 ^ 16) with 65536. lia.
Qed.

(** X5: a string of digits whose value exceeds 65535 is rejected however
    long it is: a value beyond [intmax_t] does not wrap around to a small
    ordinal, and it is exactly then that [errno] is left at [ERANGE]. *)
Theorem str_to_uint16_rejects_large (ds : string) (e : Z) :
  all_digits ds = true -> 65535 < dec_val 0 ds ->
  str_to_uint16 ds e =
  (None, if CRT.INTMAX_MAX <? dec_val 0 ds then CRT.ERANGE else 0).
Proof.
  intros A H.
  assert (Hne : ds <> EmptyString) by (intros ->; simpl in H; lia).
  rewrite (str_to_uint16_digits ds e A Hne).
  destruct (CRT.INTMAX_MAX <? dec_val 0 ds); [reflexivity|].
  destruct (Z.ltb_spec 65535 (dec_val 0 ds)); [reflexivity | lia].
Qed.

(** X6: after a minus sign, digits are accepted only when their value is
    zero, and then the ordinal is 0; every other negative number is
    rejected. *)
Theorem str_to_uint16_minus_sign (ds : string) (e : Z) :
  all_digits ds = true -> ds <> EmptyString ->
  fst (str_to_uint16 (String "-" ds) e) =
  if dec_val 0 ds =? 0 then Some 0 else None.
Proof.
  intros A Hne. rewrite ParseFacts.str_to_uint16_spec.
  unfold lenient_decimal_u16.
  change (c_str (String "-" ds)) with (String "-"%char (c_str ds)).
  rewrite (ParseFacts.all_digits_nul_free ds A).
  change (strip_space (String "-" ds)) with (String "-"%char ds).
  cbv iota beta. change (Ascii.eqb "-" "-") with true. cbv iota.
  destruct ds as [|c r] eqn:Eds; [congruence|].
  rewrite <- Eds in *. rewrite A. reflexivity.
Qed.

(** ** The shim, further *)

Lemma utoa_fuel_nonempty (fuel : nat) (n : Z) (acc : string) :
  CRT.utoa_fuel fuel n acc <> EmptyString.
Proof.
  revert n acc. induction fuel as [|f IH]; intros n acc; simpl.
  - discriminate.
  - destruct (n / 10 =? 0); [discriminate | apply IH].
Qed.

Lemma utoa_strict (n : Z) :
  0 <= n <= 65535 -> strict_decimal_u16 (CRT.utoa n) = Some n.
Proof.
  intros [H0 H1].
  destruct (CRTFacts.utoa_decimal n H0) as [A V].
  unfold strict_decimal_u16.
  destruct (CRT.utoa n) as [|c r] eqn:E.
  - exfalso. exact (utoa_fuel_nonempty _ _ _ E).
  - rewrite A, V. destruct (Z.leb_spec n 65535); [reflexivity | lia].
Qed.

Section ShimMore.

Variable K : Type.
Variable os : Platform K.

Ltac run_shim :=
  unfold GetModuleHandle_NULL, GetErrorMode, SetErrorMode, LoadLibraryW,
    FreeLibrary, GetProcAddress, GetLastError, store_lastError, free,
    syscall, emit, bind, modify, gets, ret;
  cbv zeta; simpl.

(** X7: every ordinal can be requested: for [n] in [0, 65535], [dlsym]
    given [n] printed in decimal asks the platform for ordinal [n]. *)
Theorem dlsym_reaches_every_ordinal (h n : Z) (w : World K) :
  0 <= n <= 65535 ->
  lookups (since w (snd (dlsym os h (CRT.utoa n) w))) = [(h, ByOrdinal n)].
Proof.
  intros H. rewrite dlsym_lookups.
  rewrite (ParseFacts.strict_is_lenient _ n (utoa_strict n H)).
  reflexivity.
Qed.

(** X8: a name whose first byte is neither white space, nor a sign, nor a
    digit (any C identifier, any decorated name) is looked up by name,
    unchanged, whatever digits it contains further on. *)
Theorem dlsym_identifier_by_name (h : Z) (c : ascii) (r : string) (w : World K) :
  isspace c = false -> isdigit c = false ->
  Ascii.eqb c "-" = false -> Ascii.eqb c "+" = false ->
  lookups (since w (snd (dlsym os h (String c r) w)))
  = [(h, ByName (String c r))].
Proof.
  intros Hs Hd Hm Hp. rewrite dlsym_lookups.
  assert (E : lenient_decimal_u16 (String c r) = None).
  { unfold lenient_decimal_u16. simpl c_str.
    destruct (Ascii.eqb c NUL); [reflexivity|].
    simpl strip_space. rewrite Hs, Hm, Hp. simpl all_digits. rewrite Hd.
    reflexivity. }
  rewrite E. reflexivity.
Qed.


(** The path conversion loads nothing, looks nothing up and unloads
    nothing. *)
Lemma UTF8toWCHAR_quiet (f : string) (w : World K) :
  exists ev, trace (snd (UTF8toWCHAR os f w)) = trace w ++ ev /\
             loads ev = [] /\ lookups ev = [] /\ unloads ev = [].
Proof.
  unfold UTF8toWCHAR, MultiByteToWideChar, malloc, free, SetLastError,
    syscall, emit, bind, modify, ret.
  cbv zeta.
  repeat match goal with
         | |- context [if ?b then _ else _] => destruct b
         end;
    simpl; eexists; (split; [trace_eq|]); repeat split.
Qed.

(** X10: when the path cannot be converted, [dlopen] returns [NULL]
    without calling [LoadLibraryW] and without reading or setting the
    error mode; the slot receives the last-error code the conversion
    left. *)
Theorem dlopen_conversion_failure
    (f : string) (mode : Z) (w w1 : World K) :
  UTF8toWCHAR os f w = (None, w1) ->
  let r := dlopen os (Some f) mode w in
  fst r = NULL /\
  loads (since w (snd r)) = [] /\
  mode_changes (since w (snd r)) = [] /\
  since w1 (snd r) = [EvGetLastError (win32_error w1);
                      EvStoreLastError (win32_error w1)] /\
  lastError (snd r) = win32_error w1 /\
  error_mode (snd r) = error_mode w.
Proof.
  intros HU. cbv zeta.
  pose proof (UTF8toWCHAR_frame K os f w) as (H1 & H2 & ev & H3 & H4 & H5 & H6).
  pose proof (UTF8toWCHAR_quiet f w) as (ev' & H3' & L1 & L2 & L3).
  unfold dlopen, bind. rewrite HU in *. simpl in H1, H2, H3, H3'.
  assert (ev' = ev) by (rewrite H3 in H3'; apply app_inv_head in H3'; congruence).
  subst ev'. run_shim.
  split; [reflexivity|]. split; [|split; [|split; [|split]]].
  - since_eq. unfold loads in *. rewrite flat_map_app, L1. reflexivity.
  - since_eq. unfold mode_changes in *. rewrite flat_map_app, H6. reflexivity.
  - apply since_app. trace_eq.
  - reflexivity.
  - exact H2.
Qed.

End ShimMore.

Section ShimErrors.

Variable K : Type.
Variable os : Platform K.

Ltac run_shim :=
  unfold GetModuleHandle_NULL, GetErrorMode, SetErrorMode, LoadLibraryW,
    FreeLibrary, GetProcAddress, GetLastError, store_lastError, free,
    syscall, emit, bind, modify, gets, ret;
  cbv zeta; simpl.

(** X11: when the allocation of the wide-character buffer fails, [dlopen]
    returns [NULL] without calling [LoadLibraryW] or [free], the slot holds
    [ERROR_OUTOFMEMORY], and [dlerror] then reports "Win32 error 14". *)
Theorem dlopen_out_of_memory (f : string) (mode : Z) (w : World K) :
  let r1 := os_MultiByteToWideChar os (kernel w) CP_UTF8 0 f (-1) NULL 0 in
  fst (result r1) <> 0 ->
  result (os_malloc os (after r1)
            (to_size_t (fst (result r1) * sizeof_WCHAR))) = NULL ->
  let r := dlopen os (Some f) mode w in
  fst r = NULL /\
  lastError (snd r) = ERROR_OUTOFMEMORY /\
  fst (dlerror (snd r)) = Some "Win32 error 14"%string /\
  loads (since w (snd r)) = [] /\
  frees (since w (snd r)) = [].
Proof.
  cbv zeta. intros E1 E2.
  unfold dlopen, UTF8toWCHAR, MultiByteToWideChar, malloc, SetLastError.
  run_shim.
  apply Z.eqb_neq in E1. rewrite E1. simpl. rewrite E2. simpl.
  repeat split; since_eq; reflexivity.
Qed.

(** A failure can be read back through [dlerror] unless the platform's
    error code was 0. *)
Lemma failure_visible (w w' : World K) :
  slot_policy true w w' ->
  (fst (dlerror w') = None <-> platform_errors (since w w') = [0]).
Proof.
  intros (err & H1 & H2 & H3). rewrite H1.
  unfold dlerror, store_lastError, emit, bind, modify, gets, ret.
  destruct (Z.eqb_spec (lastError w') 0) as [E|E]; simpl.
  - split; intros _; congruence.
  - split; [discriminate|]. intros [= ?]. congruence.
Qed.

(** X12: after a failed [dlopen] with a path, a failed [dlclose] or a
    failed [dlsym], the next [dlerror] returns [NULL] exactly when the code
    [GetLastError] gave was 0: a failure for which the platform reports no
    code cannot be told from "no error". *)
Theorem failure_hidden_iff_code_zero (w : World K) :
  (forall f mode,
     let r := dlopen os (Some f) mode w in
     fst r = NULL ->
     (fst (dlerror (snd r)) = None <->
      platform_errors (since w (snd r)) = [0])) /\
  (forall h,
     let r := dlclose os h w in
     fst r <> 0 ->
     (fst (dlerror (snd r)) = None <->
      platform_errors (since w (snd r)) = [0])) /\
  (forall h name,
     let r := dlsym os h name w in
     fst r = NULL ->
     (fst (dlerror (snd r)) = None <->
      platform_errors (since w (snd r)) = [0])).
Proof.
  split; [|split]; cbv zeta.
  - intros f mode H. apply failure_visible.
    pose proof (dlopen_path_slot K os f mode w) as P.
    rewrite H in P. exact P.
  - intros h H. apply failure_visible.
    pose proof (dlclose_slot K os h w) as P.
    apply Z.eqb_neq in H. rewrite H in P. exact P.
  - intros h name H. apply failure_visible.
    pose proof (dlsym_slot K os h name w) as P.
    rewrite H in P. exact P.
Qed.

(** X13: [dlclose] on a handle other than the main image calls
    [FreeLibrary] once, with that handle; its status is 1 when
    [FreeLibrary] returned zero and 0 otherwise, never another value. *)
Theorem dlclose_status (h : Z) (w : World K) :
  h <> main_image os ->
  let r := dlclose os h w in
  unloads (since w (snd r)) = [h] /\
  fst r = (if result (os_FreeLibrary os (kernel w) h) =? 0 then 1 else 0) /\
  (fst r = 0 \/ fst r = 1).
Proof.
  intros H. cbv zeta. unfold dlclose. run_shim.
  apply Z.eqb_neq in H. rewrite H. simpl.
  destruct (result (os_FreeLibrary os (kernel w) h) =? 0); simpl;
    (split; [since_eq; reflexivity|]); split; auto.
Qed.

(** *** Any sequence of calls *)

Lemma call_DWORD (w : World K) (c : Call) :
  DWORD_state w -> DWORD_state (call os w c).
Proof.
  destruct c; simpl.
  - apply dlopen_DWORD.
  - apply dlclose_DWORD.
  - apply dlsym_DWORD.
  - apply dlerror_DWORD.
Qed.

Lemma session_DWORD (cs : list Call) (w : World K) :
  DWORD_state w -> DWORD_state (session os cs w).
Proof.
  unfold session. revert w.
  induction cs as [|c cs IH]; intros w H; simpl; [exact H|].
  apply IH. apply call_DWORD. exact H.
Qed.

(** X14: whatever sequence of [dlopen], [dlclose], [dlsym] and [dlerror]
    calls a client makes from a state whose slot and thread error code are
    32-bit values, they remain 32-bit values, and the message of a
    following [dlerror] fits [errorMessage]: at most 23 bytes with the
    terminator. *)
Theorem session_message_fits (cs : list Call) (w : World K) (msg : string) :
  DWORD_state w ->
  fst (dlerror (session os cs w)) = Some msg ->
  DWORD_state (session os cs w) /\
  Z.of_nat (String.length msg) + 1 <= 23 /\ 23 <= errorMessage_size.
Proof.
  intros H Hm. pose proof (session_DWORD cs w H) as [H1 H2].
  split; [split; assumption|].
  revert Hm. unfold dlerror, store_lastError, emit, bind, modify, gets, ret.
  destruct (lastError (session os cs w) =? 0); simpl; [discriminate|].
  intros [= <-]. unfold sprintf_Win32_error, errorMessage_size.
  rewrite string_app_length.
  pose proof (CRTFacts.utoa_DWORD_length _ H1).
  change (String.length "Win32 error ") with 12%nat. lia.
Qed.




End ShimErrors.

(** ** Runs for the further properties *)

Example run_quiet_failure :
  fst (dlsym Quiet.platform lib "f" w0) = NULL /\
  fst (dlerror (snd (dlsym Quiet.platform lib "f" w0))) = None.
Proof. split; reflexivity. Qed.

Lemma str_to_uint16_skips_leading_space_witness :
  all_space (String " " (String (ascii_of_nat 9) "")) = true /\
  fst (str_to_uint16 (String " " (String (ascii_of_nat 9) "") ++ "12") 0)
  = fst (str_to_uint16 "12" 0).
Proof.
  exact (conj eq_refl
           (str_to_uint16_skips_leading_space
              (String " " (String (ascii_of_nat 9) "")) "12" 0 eq_refl)).
Defined.

Lemma str_to_uint16_rejects_trailing_byte_witness :
  c_str "12" = "12"%string /\ Ascii.eqb " " NUL = false /\
  isdigit " " = false /\
  fst (str_to_uint16 ("12" ++ " ") 0) = None.
Proof.
  exact (conj eq_refl (conj eq_refl (conj eq_refl
           (str_to_uint16_rejects_trailing_byte "12" " " 0
              eq_refl eq_refl eq_refl)))).
Defined.

Lemma str_to_uint16_rejects_large_witness :
  all_digits "18446744073709551617" = true /\
  65535 < dec_val 0 "18446744073709551617" /\
  str_to_uint16 "18446744073709551617" 0 = (None, CRT.ERANGE).
Proof.
  exact (conj eq_refl (conj eq_refl
           (str_to_uint16_rejects_large "18446744073709551617" 0
              eq_refl eq_refl))).
Defined.

Lemma str_to_uint16_minus_sign_witness :
  all_digits "000" = true /\ "000"%string <> EmptyString /\
  fst (str_to_uint16 "-000" 0) = Some 0 /\
  fst (str_to_uint16 "-1" 0) = None.
Proof.
  assert (N0 : "000"%string <> EmptyString) by discriminate.
  assert (N1 : "1"%string <> EmptyString) by discriminate.
  exact (conj eq_refl (conj N0 (conj
           (str_to_uint16_minus_sign "000" 0 eq_refl N0)
           (str_to_uint16_minus_sign "1" 0 eq_refl N1)))).
Defined.

Lemma dlsym_reaches_every_ordinal_witness :
  0 <= 65535 <= 65535 /\
  lookups (since w0 (snd (dlsym platform lib (CRT.utoa 65535) w0)))
  = [(lib, ByOrdinal 65535)].
Proof.
  assert (H : 0 <= 65535 <= 65535) by lia.
  exact (conj H (dlsym_reaches_every_ordinal unit platform lib 65535 w0 H)).
Defined.

Lemma dlsym_identifier_by_name_witness :
  isspace "_" = false /\ isdigit "_" = false /\
  Ascii.eqb "_" "-" = false /\ Ascii.eqb "_" "+" = false /\
  lookups (since w0 (snd (dlsym platform lib "_f12" w0)))
  = [(lib, ByName "_f12")].
Proof.
  exact (conj eq_refl (conj eq_refl (conj eq_refl (conj eq_refl
           (dlsym_identifier_by_name unit platform lib "_" "f12" w0
              eq_refl eq_refl eq_refl eq_refl))))).
Defined.

Lemma dlopen_conversion_failure_witness :
  UTF8toWCHAR platform (String (ascii_of_nat 200) "") w_err
  = (None, snd (UTF8toWCHAR platform (String (ascii_of_nat 200) "") w_err)) /\
  fst (dlopen platform (Some (String (ascii_of_nat 200) "")) 0 w_err) = NULL /\
  loads (since w_err
           (snd (dlopen platform (Some (String (ascii_of_nat 200) "")) 0 w_err)))
  = [] /\
  lastError (snd (dlopen platform (Some (String (ascii_of_nat 200) "")) 0 w_err))
  = 1113.
Proof.
  pose proof (dlopen_conversion_failure unit platform
                (String (ascii_of_nat 200) "") 0 w_err
                (snd (UTF8toWCHAR platform (String (ascii_of_nat 200) "") w_err))
                eq_refl) as (H1 & H2 & _ & _ & H5 & _).
  exact (conj eq_refl (conj H1 (conj H2 H5))).
Defined.

Lemma dlopen_out_of_memory_witness :
  fst (result (os_MultiByteToWideChar Quiet.platform (kernel w0)
                 CP_UTF8 0 "a.dll" (-1) NULL 0)) <> 0 /\
  fst (dlopen Quiet.platform (Some "a.dll"%string) 0 w0) = NULL /\
  lastError (snd (dlopen Quiet.platform (Some "a.dll"%string) 0 w0)) = 14 /\
  fst (dlerror (snd (dlopen Quiet.platform (Some "a.dll"%string) 0 w0)))
  = Some "Win32 error 14"%string.
Proof.
  assert (N : fst (result (os_MultiByteToWideChar Quiet.platform (kernel w0)
                             CP_UTF8 0 "a.dll" (-1) NULL 0)) <> 0)
    by (vm_compute; discriminate).
  pose proof (dlopen_out_of_memory unit Quiet.platform "a.dll" 0 w0 N eq_refl)
    as (H1 & H2 & H3 & _).
  exact (conj N (conj H1 (conj H2 H3))).
Defined.

Lemma failure_hidden_iff_code_zero_witness :
  fst (dlsym Quiet.platform lib "f" w0) = NULL /\
  (fst (dlerror (snd (dlsym Quiet.platform lib "f" w0))) = None <->
   platform_errors (since w0 (snd (dlsym Quiet.platform lib "f" w0))) = [0]) /\
  fst (dlclose platform 5 w0) <> 0 /\
  (fst (dlerror (snd (dlclose platform 5 w0))) = None <->
   platform_errors (since w0 (snd (dlclose platform 5 w0))) = [0]).
Proof.
  assert (N : fst (dlclose platform 5 w0) <> 0) by (vm_compute; discriminate).
  exact (conj eq_refl
          (conj (proj2 (proj2 (failure_hidden_iff_code_zero
                                 unit Quiet.platform w0)) lib "f"%string eq_refl)
          (conj N (proj1 (proj2 (failure_hidden_iff_code_zero
                                   unit platform w0)) 5 N)))).
Defined.

Lemma dlclose_status_witness :
  5 <> main_image platform /\
  unloads (since w0 (snd (dlclose platform 5 w0))) = [5] /\
  fst (dlclose platform 5 w0) = 1.
Proof.
  assert (N : 5 <> main_image platform) by (vm_compute; discriminate).
  pose proof (dlclose_status unit platform 5 w0 N) as (H1 & H2 & _).
  exact (conj N (conj H1 H2)).
Defined.

Lemma session_message_fits_witness :
  DWORD_state w0 /\
  fst (dlerror (session platform
                  [CallOpen (Some "b.dll"%string) 0; CallSym lib "g"] w0))
  = Some "Win32 error 127"%string /\
  Z.of_nat (String.length "Win32 error 127") + 1 <= 23.
Proof.
  assert (D : DWORD_state w0)
    by (vm_compute; repeat split; discriminate).
  pose proof (session_message_fits unit platform
                [CallOpen (Some "b.dll"%string) 0; CallSym lib "g"] w0
                "Win32 error 127" D eq_refl) as (_ & H & _).
  exact (conj D (conj eq_refl H)).
Defined.
